(** * Report builder: [tools/create_report.py]

    The script builds a word-processing document from a text literal: it
    sets the font of the [Normal] style, cuts the stripped text at every
    double newline, appends one paragraph with one run per piece, saves
    the document and prints a confirmation.

    The development follows the script top to bottom: Python strings and
    the two string methods the script calls, exceptions and the
    state-and-error monad the statements run in, the part of the docx
    object model the script touches, the process environment, and then
    the script itself. *)

From Stdlib Require Import NArith ZArith Ascii String.
From Equations Require Import Equations.
From stdpp Require Import gmap list.

Local Open Scope N_scope.

(** ** Python strings *)

(** A Python [str] is a sequence of Unicode code points. *)
Definition char : Type := N.
Definition str : Type := list char.

Definition nl : char := 10.
Definition space : char := 32.

(** [c.isspace()] for a single code point: the characters CPython
    classifies as whitespace (bidirectional type WS, B or S, or category
    Zs). *)
Definition isspace (c : char) : bool :=
  ((9 <=? c) && (c <=? 13))          (* \t \n \v \f \r *)
  || ((28 <=? c) && (c <=? 31))      (* FS GS RS US *)
  || (c =? 32)                       (* space *)
  || (c =? 133)                      (* U+0085 NEL *)
  || (c =? 160)                      (* U+00A0 no-break space *)
  || (c =? 5760)                     (* U+1680 *)
  || ((8192 <=? c) && (c <=? 8202))  (* U+2000 .. U+200A *)
  || (c =? 8232) || (c =? 8233)      (* U+2028, U+2029 *)
  || (c =? 8239)                     (* U+202F *)
  || (c =? 8287)                     (* U+205F *)
  || (c =? 12288).                   (* U+3000 *)

(** [s.lstrip()], [s.rstrip()] and [s.strip()] without argument. *)
Fixpoint lstrip (s : str) : str :=
  match s with
  | c :: s' => if isspace c then lstrip s' else s
  | [] => []
  end.

Definition rstrip (s : str) : str := reverse (lstrip (reverse s)).

Definition strip (s : str) : str := rstrip (lstrip s).

(** [s.startswith(p)]. *)
Fixpoint startswith (s p : str) {struct p} : bool :=
  match p, s with
  | [], _ => true
  | a :: p', b :: s' => (a =? b) && startswith s' p'
  | _ :: _, [] => false
  end.

(** The scan behind [s.split(sep)] for a separator [c0 :: sep'] that is not
    empty: [cur] holds, reversed, the characters read since the last cut.
    At an occurrence of the separator the piece is closed and the scan
    resumes behind the occurrence, so occurrences are found left to right
    and do not overlap. *)
Equations? split_from (c0 : char) (sep' : str) (s : str) (cur : str) : list str
  by wf (length s) lt :=
  split_from c0 sep' [] cur := [reverse cur];
  split_from c0 sep' (c :: s') cur with startswith (c :: s') (c0 :: sep') := {
    | true := reverse cur :: split_from c0 sep' (drop (length sep') s') [];
    | false := split_from c0 sep' s' (c :: cur) }.
Proof.
  all: rewrite ?length_drop; simpl; lia.
Qed.

(** [sep.join(pieces)]. *)
Fixpoint str_join (sep : str) (pieces : list str) : str :=
  match pieces with
  | [] => []
  | [p] => p
  | p :: ps => p ++ sep ++ str_join sep ps
  end.

(** [sep in s]. *)
Fixpoint contains (s sep : str) : bool :=
  startswith s sep ||
  match s with
  | [] => false
  | _ :: s' => contains s' sep
  end.

(** Source literals are written as Rocq strings, which are byte
    sequences; [py] decodes the UTF-8 bytes into code points. *)
Fixpoint utf8_decode (bs : list N) : str :=
  match bs with
  | [] => []
  | b0 :: bs1 =>
      if b0 <? 128 then b0 :: utf8_decode bs1
      else match bs1 with
      | [] => [b0]
      | b1 :: bs2 =>
          if b0 <? 224 then
            N.lor (N.shiftl (N.land b0 31) 6) (N.land b1 63) :: utf8_decode bs2
          else match bs2 with
          | [] => [b0; b1]
          | b2 :: bs3 =>
              if b0 <? 240 then
                N.lor (N.shiftl (N.land b0 15) 12)
                  (N.lor (N.shiftl (N.land b1 63) 6) (N.land b2 63))
                :: utf8_decode bs3
              else match bs3 with
              | [] => [b0; b1; b2]
              | b3 :: bs4 =>
                  N.lor (N.shiftl (N.land b0 7) 18)
                    (N.lor (N.shiftl (N.land b1 63) 12)
                       (N.lor (N.shiftl (N.land b2 63) 6) (N.land b3 63)))
                  :: utf8_decode bs4
              end
          end
      end
  end.

Definition py (s : string) : str :=
  utf8_decode (map N_of_ascii (list_ascii_of_string s)).

(** ** Exceptions and the statement monad *)

(** The error numbers the script can meet when it writes the file. *)
Inductive errno : Type :=
| ENOENT    (* no such file or directory *)
| EACCES    (* permission denied *)
| EISDIR    (* is a directory *)
| ENOSPC.   (* no space left on device *)

(** The exceptions, by class.  [UnicodeEncodeError] is a subclass of
    [ValueError]; [IOError] is the name the specification uses for
    [OSError] and its subclasses. *)
Inductive exn : Type :=
| ValueError (msg : str)
| UnicodeEncodeError
| KeyError (key : str)
| IOError (code : errno) (path : str)
| SerializationError
| ReferenceError.

(** [isinstance(e, ValueError)]. *)
Definition is_ValueError (e : exn) : bool :=
  match e with
  | ValueError _ | UnicodeEncodeError => true
  | _ => false
  end.

(** [isinstance(e, IOError)]. *)
Definition is_IOError (e : exn) : bool :=
  match e with
  | IOError _ _ => true
  | _ => false
  end.

Inductive outcome (A : Type) : Type :=
| Return (a : A)
| Raise (e : exn).
Arguments Return {A} a.
Arguments Raise {A} e.

(** [s.split(sep)]: an empty separator is a [ValueError]. *)
Definition split (s sep : str) : outcome (list str) :=
  match sep with
  | [] => Raise (ValueError (py "empty separator"))
  | c0 :: sep' => Return (split_from c0 sep' s [])
  end.

(** A statement runs on a state of type [S]; it returns a value or raises,
    and leaves a state behind either way.  A raised exception skips the
    statements that follow. *)
Definition M (S A : Type) : Type := S -> outcome A * S.

#[global] Instance M_ret {S} : MRet (M S) := fun A a s => (Return a, s).

#[global] Instance M_bind {S} : MBind (M S) := fun A B k m s =>
  match m s with
  | (Return a, s') => k a s'
  | (Raise e, s') => (Raise e, s')
  end.

Definition raise {S A} (e : exn) : M S A := fun s => (Raise e, s).

Definition lift_outcome {S A} (r : outcome A) : M S A := fun s => (r, s).

(** [for x in l: body(x)]. *)
Fixpoint for_each {S A} (l : list A) (body : A -> M S unit) : M S unit :=
  match l with
  | [] => mret tt
  | x :: l' => body x ;; for_each l' body
  end.

(** Runs the statements [m] on a fresh object [init] and hands the object
    back; the enclosing state is not touched. *)
Definition with_object {S T} (init : T) (m : M T unit) : M S T := fun s =>
  match m init with
  | (Return _, t) => (Return t, s)
  | (Raise e, _) => (Raise e, s)
  end.

(** ** The docx object model

    The classes of the docx package are not part of the sources.  The
    model keeps what the script reads and writes through the package's
    interface: a style table with a font per style, and the body as a
    list of paragraphs, each a list of runs.  A run holds what the
    package makes of a text: pieces of text, tabs and line breaks. *)

(** A length, in English Metric Units as the package stores it. *)
Definition Length : Type := Z.

(** [Pt(points)]. *)
Definition Pt (points : Z) : Length := (points * 12700)%Z.

Record Font : Type := mkFont {
  font_name : option str;
  font_size : option Length
}.

(** The content of a run: a text element, a tab or a line break. *)
Inductive run_item : Type :=
| RText (t : str)
| RTab
| RBreak.

Record Run : Type := mkRun {
  run_content : list run_item;
  run_font : Font
}.

Record Paragraph : Type := mkParagraph {
  paragraph_style : option str;
  paragraph_runs : list Run
}.

Record Document : Type := mkDocument {
  styles : gmap str Font;
  paragraphs : list Paragraph
}.

(** A font setting that is [None] is inherited. *)
Definition inherited : Font := mkFont None None.

(** [Document()]: the default template, with its [Normal] style and an
    empty body.  Of the template's style table only the entry the script
    uses is kept. *)
Definition Document_new : Document :=
  mkDocument {[ py "Normal" := inherited ]} [].

(** [doc.styles[style].font.name = name]. *)
Definition set_style_font_name (style name : str) : M Document unit := fun doc =>
  match styles doc !! style with
  | None => (Raise (KeyError style), doc)
  | Some f =>
      (Return tt, mkDocument (<[style := mkFont (Some name) (font_size f)]> (styles doc))
                         (paragraphs doc))
  end.

(** [doc.styles[style].font.size = size]. *)
Definition set_style_font_size (style : str) (size : Length) : M Document unit := fun doc =>
  match styles doc !! style with
  | None => (Raise (KeyError style), doc)
  | Some f =>
      (Return tt, mkDocument (<[style := mkFont (font_name f) (Some size)]> (styles doc))
                         (paragraphs doc))
  end.

(** [p = doc.add_paragraph()]: a paragraph without runs and without a
    style of its own is appended to the body.  The value returned is a
    handle on the paragraph inside the document, here its position. *)
Definition add_paragraph : M Document nat := fun doc =>
  (Return (length (paragraphs doc)),
   mkDocument (styles doc) (paragraphs doc ++ [mkParagraph None []])).

(** *** Text in a run

    The package hands the text of a run to its XML layer, which refuses
    what XML cannot hold. *)

(** A surrogate code point: it has no UTF-8 encoding. *)
Definition surrogate (c : char) : bool := (55296 <=? c) && (c <=? 57343).

(** A character XML can hold: tab, newline, carriage return and
    everything from the space on, except the surrogates and the two
    non-characters U+FFFE and U+FFFF. *)
Definition xml_char (c : char) : bool :=
  ((32 <=? c) || (c =? 9) || (c =? 10) || (c =? 13))
  && negb (surrogate c)
  && negb ((c =? 65534) || (c =? 65535)).

(** A text the XML layer accepts. *)
Definition storable (t : str) : bool := forallb xml_char t.

(** A text element is added for [t]: the text is encoded first, which
    fails with [UnicodeEncodeError] on a surrogate, and then checked,
    which fails with [ValueError]. *)
Definition add_t (t : str) : M (list run_item) unit := fun items =>
  if existsb surrogate t then (Raise UnicodeEncodeError, items)
  else if storable t then (Return tt, items ++ [RText t])
  else (Raise (ValueError (py "All strings must be XML compatible: Unicode or ASCII, no NULL bytes or control characters")),
        items).

Definition add_tab : M (list run_item) unit := fun items =>
  (Return tt, items ++ [RTab]).

Definition add_br : M (list run_item) unit := fun items =>
  (Return tt, items ++ [RBreak]).

(** The characters collected in [bfr] become a text element, if there
    are any. *)
Definition flush (bfr : str) : M (list run_item) unit :=
  match bfr with
  | [] => mret tt
  | _ :: _ => add_t bfr
  end.

(** [run.text = text]: the text is read character by character.  A tab
    becomes a tab element, a newline or a carriage return a line break;
    the characters between them are collected and become text
    elements. *)
Fixpoint append_to_run_from_text (text bfr : str) : M (list run_item) unit :=
  match text with
  | [] => flush bfr
  | c :: text' =>
      if c =? 9 then
        flush bfr ;; add_tab ;; append_to_run_from_text text' []
      else if (c =? 13) || (c =? 10) then
        flush bfr ;; add_br ;; append_to_run_from_text text' []
      else
        append_to_run_from_text text' (bfr ++ [c])
  end.

(** The content a fresh run receives for [text], and whether setting it
    raised. *)
Definition set_text (text : str) : outcome unit * list run_item :=
  match text with
  | [] => (Return tt, [])
  | _ :: _ => append_to_run_from_text text [] []
  end.

(** [p.add_run(text)]: appends a run to the paragraph behind the handle
    [p], in the document, and sets its text unless the text is empty.
    When setting the text raises, the run is in the paragraph already,
    with the content it had received.  Handles only come from
    [add_paragraph]; a handle that points nowhere has no counterpart in
    Python and is reported as [ReferenceError]. *)
Definition add_run (p : nat) (text : str) : M Document unit := fun doc =>
  match paragraphs doc !! p with
  | None => (Raise ReferenceError, doc)
  | Some para =>
      let '(r, content) := set_text text in
      let para' := mkParagraph (paragraph_style para)
                               (paragraph_runs para ++ [mkRun content inherited]) in
      (r, mkDocument (styles doc) (<[p := para']> (paragraphs doc)))
  end.

(** What an element of a run reads as. *)
Definition item_text (i : run_item) : str :=
  match i with
  | RText t => t
  | RTab => [9]
  | RBreak => [nl]
  end.

(** [run.text]. *)
Definition run_text (r : Run) : str :=
  List.concat (map item_text (run_content r)).

(** [p.text]: the texts of the runs, concatenated. *)
Definition paragraph_text (p : Paragraph) : str :=
  List.concat (map run_text (paragraph_runs p)).

(** [[p.text for p in doc.paragraphs]]. *)
Definition paragraph_texts (doc : Document) : list str :=
  map paragraph_text (paragraphs doc).

(** A text as it is read back from a run: a carriage return has become a
    line break and reads as a newline. *)
Definition line_breaks (t : str) : str :=
  map (fun c => if c =? 13 then nl else c) t.

(** The style a paragraph is rendered with: its own, or [Normal]. *)
Definition style_of (p : Paragraph) : str :=
  default (py "Normal") (paragraph_style p).

(** Font family and size a run is rendered with: its own setting, or the
    one of the paragraph's style. *)
Definition effective_font_name (doc : Document) (p : Paragraph) (r : Run) : option str :=
  match font_name (run_font r) with
  | Some n => Some n
  | None => styles doc !! style_of p ≫= font_name
  end.

Definition effective_font_size (doc : Document) (p : Paragraph) (r : Run) : option Length :=
  match font_size (run_font r) with
  | Some n => Some n
  | None => styles doc !! style_of p ≫= font_size
  end.

(** Font family and size of the paragraph itself. *)
Definition paragraph_font (doc : Document) (p : Paragraph) : option Font :=
  styles doc !! style_of p.

(** Every text element of the document is one the XML layer accepts. *)
Definition item_ok (i : run_item) : bool :=
  match i with
  | RText t => storable t
  | RTab | RBreak => true
  end.

Definition encodable (doc : Document) : bool :=
  forallb (fun p => forallb (fun r => forallb item_ok (run_content r))
                            (paragraph_runs p))
          (paragraphs doc).

(** ** The process environment *)

Inductive dir_state : Type := Missing | ReadOnly | Writable.

(** What the script can observe of its environment.  For a path: the
    state of the directory the path lies in, and what else keeps the
    path from being opened for writing (it names a directory, access is
    denied).  Whether the device runs out of space during a write.  The
    documents stored in files, and the paths where a write stopped half
    way.  The output stream, and the uncaught exceptions reported on the
    error stream. *)
Record World : Type := mkWorld {
  parent_dir : str -> dir_state;
  open_error : str -> option errno;
  disk_full : bool;
  files : gmap str Document;
  partial : gset str;
  stdout : str;
  stderr : list exn
}.

(** Modelled from the spec: [Document.save] belongs to the docx package,
    which is not part of the sources.  The file is opened for writing
    first: that fails with [IOError], and nothing is written, when the
    parent directory of the path does not exist or is not writable, or
    when the path itself cannot be opened.  Then the content is written:
    a document that cannot be encoded fails with [SerializationError], a
    full device with [IOError], and either leaves a partial file at the
    path.  Otherwise the document replaces whatever the path held. *)
Definition save (doc : Document) (path : str) : M World unit := fun w =>
  let stopped :=
    mkWorld (parent_dir w) (open_error w) (disk_full w)
            (delete path (files w)) ({[ path ]} ∪ partial w) (stdout w) (stderr w) in
  match parent_dir w path with
  | Missing => (Raise (IOError ENOENT path), w)
  | ReadOnly => (Raise (IOError EACCES path), w)
  | Writable =>
      match open_error w path with
      | Some code => (Raise (IOError code path), w)
      | None =>
          if negb (encodable doc) then (Raise SerializationError, stopped)
          else if disk_full w then (Raise (IOError ENOSPC path), stopped)
          else
            (Return tt,
             mkWorld (parent_dir w) (open_error w) (disk_full w)
                     (<[path := doc]> (files w)) (partial w ∖ {[ path ]})
                     (stdout w) (stderr w))
      end
  end.

(** [print(s)]. *)
Definition print (s : str) : M World unit := fun w =>
  (Return tt,
   mkWorld (parent_dir w) (open_error w) (disk_full w) (files w) (partial w)
           (stdout w ++ s ++ [nl]) (stderr w)).

(** Running a script as a process: exit status 0 when the last statement
    returns; an uncaught exception ends the process with exit status 1,
    and the interpreter reports it on the error stream. *)
Definition run_script (script : M World unit) (w : World) : Z * World :=
  match script w with
  | (Return _, w') => (0%Z, w')
  | (Raise e, w') =>
      (1%Z, mkWorld (parent_dir w') (open_error w') (disk_full w') (files w')
                    (partial w') (stdout w') (stderr w' ++ [e]))
  end.

(** ** The script *)

Definition output_path : str :=
  py "d:\automation Assignment\B9IS121_Report.docx".

(** [doc.styles['Normal'].font.name = 'Arial'] and
    [doc.styles['Normal'].font.size = Pt(11)]. *)
Definition set_default_style : M Document unit :=
  set_style_font_name (py "Normal") (py "Arial") ;;
  set_style_font_size (py "Normal") (Pt 11).

(** The loop [for para in text.strip().split('\n\n')]. *)
Definition add_paragraphs (text : str) : M Document unit :=
  segs ← lift_outcome (split (strip text) [nl; nl]) ;
  for_each segs (fun para =>
    p ← add_paragraph ;
    add_run p (strip para)).

Definition build_document (text : str) : M Document unit :=
  set_default_style ;;
  add_paragraphs text.

(** The body of the script, for a text and an output path. *)
Definition build_report (text path : str) : M World unit :=
  doc ← with_object Document_new (build_document text) ;
  save doc path ;;
  print (py "Report written to: " ++ path).

(** ** Segments of the input *)

(** The pieces of [text.strip().split('\n\n')], the list the loop runs
    over. *)
Definition segments (text : str) : list str :=
  split_from nl [nl] (strip text) [].

Definition nonempty (s : str) : bool :=
  match s with
  | [] => false
  | _ :: _ => true
  end.

(** The segments as the specification counts them: the text is trimmed
    and cut at double newlines, each piece is trimmed, and the pieces
    that are empty after trimming are dropped. *)
Definition spec_segments (text : str) : list str :=
  List.filter nonempty (map strip (segments text)).

(** A text that starts or ends with whitespace. *)
Definition untrimmed (s : str) : bool :=
  from_option isspace false (head s) || from_option isspace false (last s).

(** ** What the script computes, in closed form *)

(** The paragraph the loop body appends for a piece: one run, with the
    content the run receives for the trimmed piece. *)
Definition paragraph_of (seg : str) : Paragraph :=
  mkParagraph None [mkRun (snd (set_text (strip seg))) inherited].

Definition default_font : Font := mkFont (Some (py "Arial")) (Some (Pt 11)).

(** The document as it is when the loop has ended. *)
Definition document_of (text : str) : Document :=
  mkDocument {[ py "Normal" := default_font ]} (map paragraph_of (segments text)).

(** Every trimmed piece of the text is one the XML layer accepts. *)
Definition storable_text (text : str) : bool :=
  forallb storable (map strip (segments text)).

(** The loop over the pieces: how it ends, and the paragraphs it has
    appended by then.  It stops at the first piece whose text is
    refused; that piece's paragraph has been appended already. *)
Fixpoint appended (segs : list str) : outcome unit * list Paragraph :=
  match segs with
  | [] => (Return tt, [])
  | seg :: segs' =>
      match fst (set_text (strip seg)) with
      | Return _ =>
          let '(r, ps) := appended segs' in (r, paragraph_of seg :: ps)
      | Raise e => (Raise e, [paragraph_of seg])
      end
  end.

(** The confirmation the script prints. *)
Definition confirmation (path : str) : str := py "Report written to: " ++ path.

(** A text that holds a carriage return. *)
Definition has_cr (t : str) : bool := existsb (fun c => c =? 13) t.

(** The text literal of the script, as the bytes of the source file.  A
    double quote inside the text is written [dq]. *)
Definition dq : string := String "034"%char EmptyString.

Definition report_source : string :=
  String.concat EmptyString [
"
Title: Network Systems and Administration - Project Report

Introduction
This report explains the work I completed for the Network Systems and Administration assignment. I will use very easy words. I will say what I wanted to do, how I set up the systems, how I made the CI/CD pipeline, how I used Ansible and Docker, how I fixed problems, and what to do next. I will keep sentences short and clear. This report is for someone who wants to read step by step what I did.

1. Goal of the Project
The main goal was to make a small web application run on a server automatically. I wanted the code in my repository to be built into a Docker image and then moved to a real server. The server should start the web app in a container. I also wanted the process to be safe and repeatable. I used tools that help me make this work without typing many commands every time.

2. What I used
I used a few tools with simple jobs:
- Git and GitHub: to keep code and history.
- Docker: to make a package called an image that has the app and all needed parts.
- Ansible: to tell the server what to do. Ansible runs tasks on the server.
- GitHub Actions: to run steps each time I push code. This helps to build the image and run Ansible.
- SSH keys: to let GitHub Actions connect to the server without a password.
- An Azure virtual machine (VM): this is the server where the app runs.
All tools together let me build, send, and run the web app automatically.

3. Project steps (easy steps)
Below I explain the steps I followed. I show the order and why each step matters.

Step 1: Prepare the code
I put the web page files in a folder called app. The app has a simple HTML page. I wrote a Dockerfile that says how to make the image. The Dockerfile tells Docker which base image to use and how to copy my files into the image and how to run the server inside the container.

Step 2: Set up the CI/CD workflow
I made a GitHub Actions file in .github/workflows. This file lists the steps to run when I push code to the main branch. The workflow does these things:
- Check out the code from the repo.
- Build a Docker image using the app folder.
- Push the image to Docker Hub.
- Use SSH to connect to the VM.
- Install Ansible on the runner.
- Run the Ansible playbook that deploys the container.
- Check if the web app is running.

Step 3: Create SSH keys
I made an SSH key pair (private and public). The private key goes to GitHub Secrets so the workflow can use it. The public key goes into the VM's authorized_keys file. This allows the workflow to SSH into the VM without a password.

Step 4: Add secrets in GitHub
I added secrets to the GitHub repository. The secrets are secure values that GitHub Actions can use. The secrets I added are:
- SSH_PRIVATE_KEY: the private SSH key content.
- VM_HOST: the IP address of the VM.
- VM_USER: the username for the VM.
- DOCKER_USERNAME and DOCKER_PASSWORD: Docker Hub credentials.
Adding these secrets keeps passwords out of the code.

Step 5: Ansible playbook
I wrote an Ansible playbook called deploy_docker.yml. The playbook does these tasks on the VM:
- Ensure Python 3 is present (Ansible needs Python on the remote machine).
- Update apt cache and install packages for Docker.
- Add the Docker repository and its GPG key.
- Install Docker and start the Docker service.
- Install pip3 and the Docker Python SDK so Ansible can run Docker tasks.
- Pull the latest Docker image from Docker Hub.
- Stop and remove any old container and start a new container with the correct ports.

Step 6: Test and verify
After the workflow runs, it waits a little and then checks the VM's URL to see if the web page responds. If the page loads, the deployment is successful.

4. Important details and small problems I fixed
I found a few small problems while working. I list them with how I fixed them in easy words.

Problem A: Secret names did not match
At first, the workflow used secret names called DOCKERHUB_USERNAME and DOCKERHUB_TOKEN. My repository had secrets named DOCKER_USERNAME and DOCKER_PASSWORD. The pipeline did not read the right values. I changed the workflow to use the correct secret names. This fixed the login step to Docker Hub.

Problem B: SSH private key error in actions
GitHub Actions said the ssh-private-key argument was empty in one run. This happened when the secret was not set or had the wrong name. I checked the repository settings and added SSH_PRIVATE_KEY. Then the action could use the key to connect.

Problem C: Ansible lint warnings
When I ran ansible-lint it showed rules that were broken. The main problems were:
- Use of short module names (like apt) instead of full names. Ansible wants the full collection name like ansible.builtin.apt.
- Use of yes/no words that linters expect true/false.
- Some rules about package latest state and module parameters.
I updated the playbook to use full names (FQCN) such as ansible.builtin.apt and ansible.builtin.service. I also made booleans true and false. This change does not change how tasks run, but it makes the linter happy.

Problem D: Idempotency and package version
A linter warned about using state: latest for apt. I changed that to state: present. This avoids installing newer unexpected versions each time and makes the playbook more stable.

Problem E: Docker image tag handling
I separated the image name and the tag in the docker_image task to be clearer. The running container uses the full image:tag string like myname/htmlcalculator:latest.

5. How I tested work locally and in CI
I used the following tests:
- Manual build: I built the Docker image on my laptop to check Dockerfile works. I ran the container locally to see the site.
- Workflow run: I pushed changes to main to start the GitHub Actions workflow. The workflow builds and pushes the image and runs the Ansible playbook on the VM.
- Health check: The pipeline waits and checks the VM URL to see if the web page responds. If it does, the deployment is good.
- Lint step: The pipeline runs ansible-lint. I fixed warnings so the lint step reports fewer errors.

6. What the final system does now (simple summary)
When I push code to the main branch, these steps happen automatically:
- GitHub Actions builds a Docker image and pushes it to Docker Hub.
- GitHub Actions connects to the VM using SSH keys.
- Ansible runs a playbook on the VM to install Docker and run the container.
- The container runs the small web page and serves it on the VM's public IP.
- The pipeline checks the web page and tells me if it works.
This means I can change the web page, push code, and the new version will be live after the pipeline finishes.

7. Simple list of commands used (so someone can repeat it)
Here are the main commands I used or that are in the playbook or workflow. They help to repeat the work.

On the local machine to make SSH key pair:
ssh-keygen -t rsa -b 4096 -f ./github-action-key -N "%string;
dq;
dq;
"
Get-Content ./github-action-key (Windows PowerShell to read the private key)
Get-Content ./github-action-key.pub (to read public key)

To add the public key to the VM (on the VM):
mkdir -p ~/.ssh
echo "%string;
dq;
"<public-key-content>"%string;
dq;
" >> ~/.ssh/authorized_keys
chmod 600 ~/.ssh/authorized_keys

To run playbook manually from a machine with Ansible:
ansible-playbook -i inventory.ini ansible/deploy_docker.yml --ssh-extra-args='-o StrictHostKeyChecking=no' -e "%string;
dq;
"dockerhub_username=XXX"%string;
dq;
" -e "%string;
dq;
"dockerhub_password=YYY"%string;
dq;
"

To check web page (from local machine):
curl -sSf http://<vm-ip>:8080

8. What I learned in simple words
I learned how to make a pipeline that builds and deploys software automatically. I learned how to use Docker to package an app. I learned how Ansible can run steps on a remote machine. I learned how to let GitHub Actions connect to a server with SSH keys. I also learned to fix small problems that the lint tool finds.

9. Problems that remain and steps to fix them later
There are a few improvements we can do in the future. These do not stop the system, but they make it better.

- Better secret handling: Use more secure storage or rotate keys regularly.
- Use tags for Docker images: Use semantic tags (like v1.0.0) rather than latest for better rollback.
- Add tests: Add automated tests for the web app so the pipeline can fail early if tests fail.
- Use Ansible Vault: Store sensitive data in Ansible Vault or in a secret manager.
- Add monitoring: Add a small monitor or alert if the site goes down.

10. Short glossary in easy words
- CI/CD: Tools that build and give out new versions automatically.
- Docker: A tool to package apps so they run the same on many machines.
- Image: A package for Docker.
- Container: A running instance of an image.
- Ansible: A tool that runs steps on other machines.
- Playbook: A file that says what Ansible should do.
- SSH key: A secret that lets one machine log in to another without a password.

11. Conclusion
I reached the project goals. The web app builds, is pushed to Docker Hub and runs on the VM. The workflow is automatic. I fixed lint problems and SSH problems. The system is simple and repeatable. The next steps are small improvements that will make the system more secure and robust.

Appendix: Files changed in this project
- .github/workflows/ci-cd.yml — This file builds the Docker image and runs the playbook.
- ansible/deploy_docker.yml — This playbook installs Docker and runs the container on the VM.
- app/Dockerfile and app/index.html — The web app and instructions to build it.

End of report.
"%string
  ].

Definition report : str := py report_source.

(** The script as it stands: the embedded text and the fixed path. *)
Definition main : M World unit := build_report report output_path.

(** ** Inputs of the specification's scenarios *)

(** ["A\n\nB\n\nC"] *)
Definition text_plain : str :=
  py "A" ++ [nl; nl] ++ py "B" ++ [nl; nl] ++ py "C".

(** ["\n\nA\n\n\n\nB\n\n"] *)
Definition text_blank_lines : str :=
  [nl; nl] ++ py "A" ++ [nl; nl; nl; nl] ++ py "B" ++ [nl; nl].

(** ["A\n\n\n\nB"] *)
Definition text_two_gaps : str :=
  py "A" ++ [nl; nl; nl; nl] ++ py "B".

(** The empty text. *)
Definition text_empty : str := [].

(** ["/tmp/out.docx"] *)
Definition tmp_out : str := py "/tmp/out.docx".

(** An environment where every directory exists and is writable, one
    where no directory exists, and one where every directory is
    read-only; no files, nothing printed yet. *)
Definition world_writable : World := mkWorld (fun _ => Writable) (fun _ => None) false ∅ ∅ [] [].

(** ** Further notions used in the properties *)

(** The characters of a text that are not whitespace, in order. *)
Definition visible (s : str) : str :=
  List.filter (fun c => negb (isspace c)) s.

(** A text made of whitespace only (the empty text included). *)
Definition blank (s : str) : bool := forallb isspace s.

(** A block of text that can stand as a paragraph of its own: not empty,
    no whitespace at either end, no double newline inside. *)
Definition block (p : str) : bool :=
  nonempty p && negb (untrimmed p) && negb (contains p [nl; nl]).

(** A document whose style table is empty. *)
Definition Document_unstyled : Document := mkDocument ∅ [].

(** An environment that already holds documents at two paths. *)
Definition world_used : World :=
  mkWorld (fun _ => Writable) (fun _ => None) false
          {[ tmp_out := Document_unstyled; py "/tmp/other.docx" := Document_new ]}
          ∅ [] [].

Definition world_is_dir : World :=
  mkWorld (fun _ => Writable) (fun _ => Some EISDIR) false ∅ ∅ [] [].

(** ["A\rB"], ["A\x0bB"] and ["A\x0bB\n\nC"]: a carriage return and a
    vertical tab inside a piece. *)
Definition text_cr : str := py "A" ++ [13] ++ py "B".
Definition text_vt : str := py "A" ++ [11] ++ py "B".
Definition text_vt_then : str := py "A" ++ [11] ++ py "B" ++ [nl; nl] ++ py "C".

(** * Properties of the string methods *)

Section Strip.

Lemma lstrip_split (s : str) :
  exists ws, s = ws ++ lstrip s /\ forallb isspace ws = true.
Proof.
  induction s as [|c s [ws [Hs Hws]]]; simpl.
  - exists []. done.
  - destruct (isspace c) eqn:Hc.
    + exists (c :: ws). simpl. rewrite Hc, Hws. split; [congruence | done].
    + exists []. done.
Qed.

Lemma lstrip_head (s : str) (c : char) :
  head (lstrip s) = Some c -> isspace c = false.
Proof.
  induction s as [|a s IH]; simpl; [done |].
  destruct (isspace a) eqn:Ha; [done |].
  simpl. congruence.
Qed.

Lemma lstrip_whitespace (s : str) :
  forallb isspace s = true -> lstrip s = [].
Proof.
  induction s as [|a s IH]; simpl; [done |].
  intros [Ha Hs]%andb_prop. rewrite Ha. auto.
Qed.

Lemma lstrip_fixed (s : str) :
  (forall c, head s = Some c -> isspace c = false) -> lstrip s = s.
Proof.
  destruct s as [|a s]; simpl; [done |].
  intros H. rewrite (H a eq_refl). done.
Qed.

Lemma forallb_reverse (ws : str) :
  forallb isspace (reverse ws) = forallb isspace ws.
Proof.
  induction ws as [|c ws IH]; [done |].
  rewrite reverse_cons, forallb_app, IH. simpl.
  rewrite andb_true_r. apply andb_comm.
Qed.

Lemma rstrip_split (s : str) :
  exists ws, s = rstrip s ++ ws /\ forallb isspace ws = true.
Proof.
  destruct (lstrip_split (reverse s)) as [ws [Hs Hws]].
  exists (reverse ws). split.
  - unfold rstrip. rewrite <- reverse_app, <- Hs, reverse_involutive. done.
  - rewrite forallb_reverse. done.
Qed.

Lemma rstrip_last (s : str) (c : char) :
  last (rstrip s) = Some c -> isspace c = false.
Proof.
  unfold rstrip. rewrite last_reverse. apply lstrip_head.
Qed.

Lemma rstrip_head (s : str) (c : char) :
  head (rstrip s) = Some c -> head s = Some c.
Proof.
  destruct (rstrip_split s) as [ws [Hs _]].
  destruct (rstrip s) as [|a r]; simpl; [done |].
  intros [= ->]. rewrite Hs. done.
Qed.

Lemma rstrip_whitespace (s : str) :
  forallb isspace s = true -> rstrip s = [].
Proof.
  intros H. unfold rstrip.
  rewrite lstrip_whitespace; [done | by rewrite forallb_reverse].
Qed.

Lemma rstrip_fixed (s : str) :
  (forall c, last s = Some c -> isspace c = false) -> rstrip s = s.
Proof.
  intros H. unfold rstrip. rewrite lstrip_fixed.
  - apply reverse_involutive.
  - intros c Hc. apply H. rewrite <- head_reverse. done.
Qed.

Lemma strip_head (s : str) (c : char) :
  head (strip s) = Some c -> isspace c = false.
Proof.
  intros H%rstrip_head. by apply lstrip_head in H.
Qed.

Lemma strip_last (s : str) (c : char) :
  last (strip s) = Some c -> isspace c = false.
Proof. apply rstrip_last. Qed.


Lemma strip_idemp (s : str) : strip (strip s) = strip s.
Proof.
  unfold strip at 1. rewrite lstrip_fixed by apply strip_head.
  apply rstrip_fixed, strip_last.
Qed.

Lemma strip_trimmed (s : str) : untrimmed (strip s) = false.
Proof.
  unfold untrimmed.
  destruct (head (strip s)) as [a|] eqn:Ha, (last (strip s)) as [b|] eqn:Hb;
    simpl; try rewrite (strip_head _ _ Ha); try rewrite (strip_last _ _ Hb); done.
Qed.

End Strip.

(** * Properties of the scan

    The separator [c0 :: sep'] is fixed throughout. *)

Section Split.

Variables (c0 : char) (sep' : str).

Lemma startswith_app (s p : str) :
  startswith s p = true -> s = p ++ drop (length p) s.
Proof.
  revert s; induction p as [|a p IH]; intros [|b s]; simpl; try done.
  intros [Hab Hs]%andb_prop. apply N.eqb_eq in Hab as ->.
  f_equal. auto.
Qed.

Lemma startswith_extend (s t p : str) :
  startswith s p = true -> startswith (s ++ t) p = true.
Proof.
  revert s; induction p as [|a p IH]; intros [|b s]; simpl; try done.
  intros [-> Hs]%andb_prop. simpl. auto.
Qed.

Lemma split_from_not_nil s cur : split_from c0 sep' s cur <> [].
Proof.
  funelim (split_from c0 sep' s cur); done.
Qed.

Lemma split_from_length s cur :
  (1 <= length (split_from c0 sep' s cur))%nat.
Proof.
  pose proof (split_from_not_nil s cur).
  destruct (split_from c0 sep' s cur); simpl; [done | lia].
Qed.

Lemma str_join_cons (sep p : str) (ps : list str) :
  ps <> [] -> str_join sep (p :: ps) = p ++ sep ++ str_join sep ps.
Proof. destruct ps; done. Qed.

(** Putting the separator back between the pieces restores the text:
    the text is cut at occurrences of the separator and nowhere else. *)
Lemma str_join_split_from s cur :
  str_join (c0 :: sep') (split_from c0 sep' s cur) = reverse cur ++ s.
Proof.
  funelim (split_from c0 sep' s cur); simp split_from.
  - simpl. by rewrite app_nil_r.
  - rewrite str_join_cons by apply split_from_not_nil.
    rewrite H. apply startswith_app in Heq. rewrite Heq. done.
  - rewrite H, reverse_cons, <- app_assoc. done.
Qed.

(** A text without an occurrence of the separator is one piece. *)
Lemma split_from_no_sep s cur :
  contains s (c0 :: sep') = false ->
  split_from c0 sep' s cur = [reverse cur ++ s].
Proof.
  funelim (split_from c0 sep' s cur); simp split_from.
  - by rewrite app_nil_r.
  - intros Hc. simpl in Hc. simpl in Heq. rewrite Heq in Hc. done.
  - intros Hc. rewrite H, reverse_cons, <- app_assoc; [done |].
    simpl in Hc. apply orb_false_elim in Hc as [_ Hc]. done.
Qed.

Lemma contains_no_suffix (p sep : str) :
  sep <> [] ->
  (forall a b, p = a ++ b -> b <> [] -> startswith b sep = false) ->
  contains p sep = false.
Proof.
  intros Hsep. induction p as [|x p IH]; intros H.
  - destruct sep; done.
  - simpl. rewrite (H [] (x :: p)) by done. apply IH.
    intros a b -> Hb. apply (H (x :: a) b); done.
Qed.

(** The scan keeps this invariant on the piece it is reading: no
    occurrence of the separator starts inside it. *)
Lemma split_from_pieces s cur :
  (forall a b, reverse cur = a ++ b -> b <> [] ->
               startswith (b ++ s) (c0 :: sep') = false) ->
  Forall (fun p => contains p (c0 :: sep') = false) (split_from c0 sep' s cur).
Proof.
  funelim (split_from c0 sep' s cur); intros Inv.
  - constructor; [| constructor].
    apply contains_no_suffix; [done |].
    intros a b Hab Hb. specialize (Inv a b Hab Hb).
    by rewrite app_nil_r in Inv.
  - constructor.
    + apply contains_no_suffix; [done |].
      intros a b Hab Hb. specialize (Inv a b Hab Hb).
      destruct (startswith b (c0 :: sep')) eqn:E; [| done].
      apply (startswith_extend _ (c :: s')) in E. congruence.
    + apply H. intros a b Hab Hb.
      symmetry in Hab. apply app_eq_nil in Hab as [_ ->]. done.
  - apply H. intros a b Hab Hb.
    rewrite reverse_cons in Hab.
    destruct b as [|y b _] using rev_ind; [done |].
    rewrite app_assoc in Hab. apply app_inj_tail in Hab as [Hab ->].
    rewrite <- app_assoc. simpl.
    destruct b as [|z b]; [done |].
    apply (Inv a (z :: b)); done.
Qed.

Lemma split_from_pieces_nil s :
  Forall (fun p => contains p (c0 :: sep') = false) (split_from c0 sep' s []).
Proof.
  apply split_from_pieces. intros a b Hab Hb.
  symmetry in Hab. apply app_eq_nil in Hab as [_ ->]. done.
Qed.

End Split.

(** * The script, statement by statement *)

Section Build.

Lemma set_default_style_new :
  set_default_style Document_new = (Return tt, mkDocument {[ py "Normal" := default_font ]} []).
Proof.
  unfold set_default_style, mbind, M_bind, set_style_font_name, set_style_font_size,
    Document_new. simpl styles.
  rewrite lookup_singleton_eq. simpl.
  rewrite lookup_insert_eq. simpl.
  rewrite insert_insert_eq, insert_singleton. done.
Qed.

(** ** Text in a run *)

Lemma storable_no_surrogate (t : str) :
  storable t = true -> existsb surrogate t = false.
Proof.
  induction t as [|c t IH]; simpl; [done |].
  intros [Hc Ht]%andb_prop. rewrite (IH Ht), orb_false_r.
  unfold xml_char in Hc. destruct (surrogate c); [| done].
  rewrite andb_false_r in Hc. done.
Qed.

Lemma add_t_storable (t : str) (items : list run_item) :
  storable t = true -> add_t t items = (Return tt, items ++ [RText t]).
Proof.
  intros Ht. unfold add_t. by rewrite (storable_no_surrogate t Ht), Ht.
Qed.

Lemma add_t_unstorable (t : str) (items : list run_item) :
  storable t = false ->
  exists e, add_t t items = (Raise e, items) /\ is_ValueError e = true.
Proof.
  intros Ht. unfold add_t. rewrite Ht.
  destruct (existsb surrogate t); eexists; done.
Qed.

Lemma flush_storable (bfr : str) (items : list run_item) :
  storable bfr = true ->
  exists its, flush bfr items = (Return tt, items ++ its) /\
              List.concat (map item_text its) = bfr /\
              forallb item_ok its = true.
Proof.
  intros Hb. destruct bfr as [|c bfr].
  - exists []. simpl. by rewrite app_nil_r.
  - exists [RText (c :: bfr)]. unfold flush. rewrite add_t_storable by done.
    simpl. rewrite app_nil_r. simpl in Hb. by rewrite Hb.
Qed.

Lemma flush_unstorable (bfr : str) (items : list run_item) :
  storable bfr = false ->
  exists e, flush bfr items = (Raise e, items) /\ is_ValueError e = true.
Proof.
  intros Hb. destruct bfr as [|c bfr]; [done |].
  by apply add_t_unstorable.
Qed.

Lemma storable_snoc (bfr : str) (c : char) :
  storable (bfr ++ [c]) = storable bfr && xml_char c.
Proof. unfold storable. rewrite forallb_app. simpl. by rewrite andb_true_r. Qed.

(** How a character is treated, by cases. *)
Lemma char_cases (c : char) :
  (c = 9 \/ c = 13 \/ c = 10) \/
  ((c =? 9) = false /\ (c =? 13) || (c =? 10) = false).
Proof.
  destruct (N.eqb_spec c 9); [by left; left |].
  destruct (N.eqb_spec c 13); [by left; right; left |].
  destruct (N.eqb_spec c 10); [by left; right; right |].
  by right.
Qed.

(** A text the XML layer accepts is stored, and reads back with its
    carriage returns as newlines. *)
Lemma fill_storable (text : str) :
  forall bfr items,
    storable bfr = true -> storable text = true ->
    exists its,
      append_to_run_from_text text bfr items = (Return tt, items ++ its) /\
      List.concat (map item_text its) = bfr ++ line_breaks text /\
      forallb item_ok its = true.
Proof.
  induction text as [|c text IH]; intros bfr items Hb Ht.
  - simpl. destruct (flush_storable bfr items Hb) as (its & Hf & Hc & Hok).
    exists its. by rewrite app_nil_r.
  - simpl in Ht. apply andb_prop in Ht as [Hc Ht].
    destruct (flush_storable bfr items Hb) as (its & Hf & Hcat & Hok).
    destruct (char_cases c) as [Hsp | [H9 H13]].
    + assert (exists i, (i = RTab \/ i = RBreak) /\ item_text i = [if c =? 13 then nl else c] /\
                append_to_run_from_text (c :: text) bfr items
                = append_to_run_from_text text [] ((items ++ its) ++ [i]))
        as (i & Hi & Hit & ->).
      { destruct Hsp as [-> | [-> | ->]];
          [exists RTab | exists RBreak | exists RBreak];
          (split; [auto |]); (split; [done |]);
          simpl; unfold mbind, M_bind; rewrite Hf; done. }
      destruct (IH [] ((items ++ its) ++ [i]) eq_refl Ht) as (its' & Hr & Hcat' & Hok').
      exists (its ++ [i] ++ its'). rewrite Hr, <- !app_assoc.
      split; [done |]. split.
      * rewrite !map_app, !concat_app, Hcat, Hcat'. simpl.
        rewrite Hit. simpl. done.
      * rewrite !forallb_app, Hok, Hok'.
        destruct Hi as [-> | ->]; done.
    + destruct (IH (bfr ++ [c]) items) as (its' & Hr & Hcat' & Hok'); [| done |].
      { rewrite storable_snoc, Hb, Hc. done. }
      exists its'. simpl. rewrite H9, H13, Hr.
      split; [done |]. split; [| done].
      rewrite Hcat', <- app_assoc. simpl.
      apply N.eqb_neq in H9.
      destruct (N.eqb_spec c 13) as [-> | _]; done.
Qed.

(** A text with a character the XML layer refuses is not stored: setting
    it raises [ValueError]. *)
Lemma fill_unstorable (text : str) :
  forall bfr items,
    storable bfr && storable text = false ->
    exists e its,
      append_to_run_from_text text bfr items = (Raise e, its) /\
      is_ValueError e = true.
Proof.
  induction text as [|c text IH]; intros bfr items Hno.
  - simpl in *. rewrite andb_true_r in Hno.
    destruct (flush_unstorable bfr items Hno) as (e & Hf & He).
    by exists e, items.
  - destruct (storable bfr) eqn:Hb.
    + simpl in Hno.
      destruct (char_cases c) as [Hsp | [H9 H13]].
      * assert (xml_char c = true) as Hc by (destruct Hsp as [-> | [-> | ->]]; done).
        rewrite Hc in Hno. simpl in Hno.
        destruct (flush_storable bfr items Hb) as (its & Hf & _).
        assert (exists i, append_to_run_from_text (c :: text) bfr items
                          = append_to_run_from_text text [] ((items ++ its) ++ [i]))
          as (i & ->).
        { destruct Hsp as [-> | [-> | ->]];
            [exists RTab | exists RBreak | exists RBreak];
            simpl; unfold mbind, M_bind; rewrite Hf; done. }
        by apply IH.
      * simpl. rewrite H9, H13. apply IH.
        rewrite storable_snoc, Hb. simpl. exact Hno.
    + destruct (char_cases c) as [Hsp | [H9 H13]].
      * destruct (flush_unstorable bfr items Hb) as (e & Hf & He).
        exists e, items. split; [| done].
        destruct Hsp as [-> | [-> | ->]];
          simpl; unfold mbind, M_bind; rewrite Hf; done.
      * simpl. rewrite H9, H13. apply IH.
        rewrite storable_snoc, Hb. done.
Qed.

Lemma fill_items_ok (text : str) :
  forall bfr items,
    forallb item_ok items = true ->
    forallb item_ok (snd (append_to_run_from_text text bfr items)) = true.
Proof.
  assert (forall bfr items, forallb item_ok items = true ->
            forallb item_ok (snd (flush bfr items)) = true) as Hflush.
  { intros [|c bfr] items Hok; [done |].
    unfold flush, add_t.
    destruct (existsb surrogate (c :: bfr)); [done |].
    destruct (storable (c :: bfr)) eqn:Hs; [| done].
    simpl snd. rewrite forallb_app, Hok. simpl. simpl in Hs. by rewrite Hs. }
  induction text as [|c text IH]; intros bfr items Hok.
  - by apply Hflush.
  - specialize (Hflush bfr items Hok).
    simpl. destruct (c =? 9); [| destruct ((c =? 13) || (c =? 10))].
    3: by apply IH.
    all: unfold mbind, M_bind;
      destruct (flush bfr items) as [[[]|e] its]; simpl in *; [| done];
      apply IH; rewrite forallb_app, Hflush; done.
Qed.

Lemma set_text_storable (t : str) :
  storable t = true ->
  exists its, set_text t = (Return tt, its) /\
              List.concat (map item_text its) = line_breaks t /\
              forallb item_ok its = true.
Proof.
  intros Ht. destruct t as [|c t]; [by exists [] |].
  destruct (fill_storable (c :: t) [] [] eq_refl Ht) as (its & Hf & Hc & Hok).
  exists its. done.
Qed.

Lemma set_text_unstorable (t : str) :
  storable t = false ->
  exists e its, set_text t = (Raise e, its) /\ is_ValueError e = true.
Proof.
  intros Ht. destruct t as [|c t]; [done |].
  apply (fill_unstorable (c :: t) [] []). exact Ht.
Qed.

Lemma set_text_return (t : str) :
  fst (set_text t) = Return tt -> storable t = true.
Proof.
  intros Hr. destruct (storable t) eqn:Ht; [done |].
  destruct (set_text_unstorable t Ht) as (e & its & Hs & _).
  rewrite Hs in Hr. done.
Qed.

Lemma set_text_raise (t : str) (e : exn) :
  fst (set_text t) = Raise e -> storable t = false /\ is_ValueError e = true.
Proof.
  intros Hr. destruct (storable t) eqn:Ht.
  - destruct (set_text_storable t Ht) as (its & Hs & _).
    rewrite Hs in Hr. done.
  - destruct (set_text_unstorable t Ht) as (e' & its & Hs & He).
    rewrite Hs in Hr. simpl in Hr. by injection Hr as <-.
Qed.

Lemma set_text_items_ok (t : str) :
  forallb item_ok (snd (set_text t)) = true.
Proof. destruct t; [done |]. by apply fill_items_ok. Qed.

(** ** The loop *)

(** One turn of the loop: the paragraph is appended and receives its
    run through the handle; the turn ends as setting the text ends. *)
Lemma loop_body (t : str) (doc : Document) :
  (add_paragraph ≫= fun p => add_run p t) doc =
  (fst (set_text t),
   mkDocument (styles doc)
              (paragraphs doc ++ [mkParagraph None [mkRun (snd (set_text t)) inherited]])).
Proof.
  unfold mbind, M_bind, add_paragraph, add_run. simpl.
  rewrite list_lookup_middle by done.
  destruct (set_text t) as [r content]. simpl.
  rewrite <- (Nat.add_0_r (length (paragraphs doc))), insert_app_r. done.
Qed.

Lemma loop_paragraphs (segs : list str) (doc : Document) :
  for_each segs (fun para => add_paragraph ≫= fun p => add_run p (strip para)) doc =
  (fst (appended segs),
   mkDocument (styles doc) (paragraphs doc ++ snd (appended segs))).
Proof.
  revert doc; induction segs as [|seg segs IH]; intros doc; simpl.
  - rewrite app_nil_r. by destruct doc.
  - unfold mbind at 1, M_bind at 1. rewrite loop_body.
    destruct (fst (set_text (strip seg))) as [[]|e] eqn:Hset.
    + rewrite IH. destruct (appended segs) as [r ps]. simpl.
      rewrite <- app_assoc. done.
    + done.
Qed.

Lemma appended_storable (segs : list str) :
  forallb storable (map strip segs) = true ->
  appended segs = (Return tt, map paragraph_of segs).
Proof.
  induction segs as [|seg segs IH]; simpl; [done |].
  intros [Hs Hrest]%andb_prop.
  destruct (set_text_storable _ Hs) as (its & -> & _).
  simpl. by rewrite (IH Hrest).
Qed.

Lemma appended_return (segs : list str) :
  fst (appended segs) = Return tt -> forallb storable (map strip segs) = true.
Proof.
  induction segs as [|seg segs IH]; simpl; [done |].
  destruct (fst (set_text (strip seg))) as [[]|e] eqn:Hset; [| done].
  rewrite (set_text_return _ Hset).
  destruct (appended segs) as [r ps]. simpl in *. exact IH.
Qed.

Lemma appended_raise (segs : list str) (e : exn) :
  fst (appended segs) = Raise e ->
  forallb storable (map strip segs) = false /\ is_ValueError e = true.
Proof.
  induction segs as [|seg segs IH]; simpl; [done |].
  destruct (fst (set_text (strip seg))) as [[]|e'] eqn:Hset.
  - rewrite (set_text_return _ Hset).
    destruct (appended segs) as [r ps]. simpl in *. exact IH.
  - simpl. intros [= ->]. destruct (set_text_raise _ _ Hset) as [-> He]. done.
Qed.

(** The paragraphs appended are those of the pieces the loop has
    reached, in order; it has reached them all when it returns. *)
Lemma appended_reached (segs : list str) :
  exists n, (n <= length segs)%nat /\
    snd (appended segs) = map paragraph_of (take n segs) /\
    (segs <> [] -> (1 <= n)%nat) /\
    (fst (appended segs) = Return tt -> n = length segs).
Proof.
  induction segs as [|seg segs (n & Hn & Hps & _ & Hall)].
  - exists 0%nat. done.
  - simpl. destruct (fst (set_text (strip seg))) as [[]|e].
    + exists (S n). destruct (appended segs) as [r ps]. simpl in *.
      rewrite Hps. repeat split; [lia | lia | intros H; f_equal; auto].
    + exists 1%nat. simpl. repeat split; try done; lia.
Qed.

Lemma add_paragraphs_eq (text : str) (doc : Document) :
  add_paragraphs text doc =
  (fst (appended (segments text)),
   mkDocument (styles doc) (paragraphs doc ++ snd (appended (segments text)))).
Proof.
  unfold add_paragraphs, mbind at 1, M_bind at 1. simpl.
  apply loop_paragraphs.
Qed.

Lemma build_document_eq (text : str) :
  build_document text Document_new =
  (fst (appended (segments text)),
   mkDocument {[ py "Normal" := default_font ]} (snd (appended (segments text)))).
Proof.
  unfold build_document, mbind, M_bind.
  rewrite set_default_style_new. fold (@mbind (M Document) _).
  rewrite add_paragraphs_eq. done.
Qed.

(** The build completes exactly for the texts whose trimmed pieces the
    XML layer accepts, and then with the document in closed form. *)
Lemma build_document_storable (text : str) :
  storable_text text = true ->
  build_document text Document_new = (Return tt, document_of text).
Proof.
  intros Hs. rewrite build_document_eq, appended_storable; done.
Qed.

Lemma build_document_return (text : str) (doc : Document) :
  build_document text Document_new = (Return tt, doc) ->
  storable_text text = true /\ doc = document_of text.
Proof.
  rewrite build_document_eq. intros [= Hr <-].
  apply appended_return in Hr. split; [done |].
  unfold document_of. by rewrite appended_storable.
Qed.

Lemma build_document_unstorable (text : str) :
  storable_text text = false ->
  exists e doc, build_document text Document_new = (Raise e, doc) /\
                is_ValueError e = true.
Proof.
  intros Hs. rewrite build_document_eq.
  destruct (fst (appended (segments text))) as [[]|e] eqn:Hr.
  - apply appended_return in Hr. unfold storable_text in Hs. congruence.
  - destruct (appended_raise _ _ Hr) as [_ He]. eauto.
Qed.

Lemma paragraph_text_of (seg : str) :
  storable (strip seg) = true ->
  paragraph_text (paragraph_of seg) = line_breaks (strip seg).
Proof.
  intros Hs. destruct (set_text_storable _ Hs) as (its & Hset & Hcat & _).
  unfold paragraph_text, paragraph_of, run_text. simpl.
  rewrite Hset. simpl. by rewrite app_nil_r.
Qed.

Lemma paragraph_texts_document_of (text : str) :
  storable_text text = true ->
  paragraph_texts (document_of text)
  = map (fun seg => line_breaks (strip seg)) (segments text).
Proof.
  unfold storable_text, paragraph_texts, document_of. simpl.
  rewrite map_map. generalize (segments text) as segs.
  induction segs as [|seg segs IH]; simpl; [done |].
  intros [Hs Hrest]%andb_prop. rewrite paragraph_text_of, IH; done.
Qed.

Lemma encodable_appended (segs : list str) (styles0 : gmap str Font) :
  encodable (mkDocument styles0 (snd (appended segs))) = true.
Proof.
  unfold encodable. simpl.
  induction segs as [|seg segs IH]; simpl; [done |].
  destruct (fst (set_text (strip seg))) as [[]|e].
  - destruct (appended segs) as [r ps]. simpl in *.
    by rewrite set_text_items_ok, IH.
  - simpl. by rewrite set_text_items_ok.
Qed.

Lemma encodable_document_of (text : str) :
  storable_text text = true -> encodable (document_of text) = true.
Proof.
  intros Hs. unfold document_of.
  pose proof (encodable_appended (segments text) {[ py "Normal" := default_font ]}) as H.
  by rewrite (appended_storable _ Hs) in H.
Qed.

(** ** The run *)

(** A text that cannot be stored ends the script before it touches the
    environment. *)
Lemma build_report_unstorable (text path : str) (w : World) :
  storable_text text = false ->
  exists e, build_report text path w = (Raise e, w) /\ is_ValueError e = true.
Proof.
  intros Hs. destruct (build_document_unstorable text Hs) as (e & doc & Hb & He).
  exists e. unfold build_report, mbind, M_bind, with_object. by rewrite Hb.
Qed.

(** Otherwise the script is as good as its [save]. *)
Lemma build_report_storable (text path : str) (w : World) :
  storable_text text = true ->
  build_report text path w =
  (save (document_of text) path ≫= fun _ => print (confirmation path)) w.
Proof.
  intros Hs. unfold build_report, mbind, M_bind, with_object.
  by rewrite (build_document_storable text Hs).
Qed.

Lemma build_report_saved (text path : str) (w : World) :
  storable_text text = true ->
  parent_dir w path = Writable -> open_error w path = None -> disk_full w = false ->
  build_report text path w =
  (Return tt, mkWorld (parent_dir w) (open_error w) (disk_full w)
                      (<[path := document_of text]> (files w))
                      (partial w ∖ {[ path ]})
                      (stdout w ++ confirmation path ++ [nl]) (stderr w)).
Proof.
  intros Hs Hp Ho Hd. rewrite build_report_storable by done.
  unfold mbind, M_bind, save.
  rewrite Hp, Ho, Hd, (encodable_document_of text Hs). done.
Qed.

(** Every way the run can end. *)
Lemma build_report_cases (text path : str) (w : World) :
  (storable_text text = true /\ parent_dir w path = Writable /\
   open_error w path = None /\ disk_full w = false /\
   build_report text path w =
   (Return tt, mkWorld (parent_dir w) (open_error w) (disk_full w)
                       (<[path := document_of text]> (files w))
                       (partial w ∖ {[ path ]})
                       (stdout w ++ confirmation path ++ [nl]) (stderr w)))
  \/
  (exists e, build_report text path w = (Raise e, w) /\
             (if storable_text text then
                is_IOError e = true /\
                (parent_dir w path <> Writable \/ open_error w path <> None)
              else is_ValueError e = true))
  \/
  (storable_text text = true /\ parent_dir w path = Writable /\
   open_error w path = None /\ disk_full w = true /\
   build_report text path w =
   (Raise (IOError ENOSPC path),
    mkWorld (parent_dir w) (open_error w) (disk_full w)
            (delete path (files w)) ({[ path ]} ∪ partial w)
            (stdout w) (stderr w))).
Proof.
  destruct (storable_text text) eqn:Hs.
  - rewrite build_report_storable by done.
    unfold mbind, M_bind, save. rewrite (encodable_document_of text Hs). simpl.
    destruct (parent_dir w path) eqn:Hp.
    1, 2: right; left; eexists; split; [done |]; split; [done | left; done].
    destruct (open_error w path) as [code|] eqn:Ho.
    { right; left. eexists. split; [done |]. split; [done | right; done]. }
    destruct (disk_full w) eqn:Hd.
    + right; right. done.
    + left. done.
  - right; left. destruct (build_report_unstorable text path w Hs) as (e & Hb & He).
    exists e. done.
Qed.

End Build.

(** * Paragraphs and segments *)

(** The build returns, with the document in closed form. *)
Ltac built text :=
  exists (document_of text);
  split; [apply build_document_storable; vm_compute; reflexivity |].

Lemma filter_partition_length {A} (f : A -> bool) (l : list A) :
  (length (List.filter f l) + length (List.filter (fun x => negb (f x)) l))%nat
  = length l.
Proof.
  induction l as [|x l IH]; simpl; [done |].
  destruct (f x); simpl; lia.
Qed.

Lemma line_breaks_id (t : str) : has_cr t = false -> line_breaks t = t.
Proof.
  induction t as [|c t IH]; simpl; [done |].
  intros [Hc Ht]%orb_false_elim. rewrite Hc, IH; done.
Qed.

Lemma nonempty_line_breaks (t : str) : nonempty (line_breaks t) = nonempty t.
Proof. by destruct t. Qed.

Lemma isspace_line_break (c : char) :
  isspace (if c =? 13 then nl else c) = isspace c.
Proof. destruct (N.eqb_spec c 13) as [-> | _]; done. Qed.

Lemma last_map {A B} (f : A -> B) (l : list A) :
  last (map f l) = option_map f (last l).
Proof.
  induction l as [|x l IH]; [done |].
  destruct l as [|y l]; [done |]. exact IH.
Qed.

Lemma untrimmed_line_breaks (t : str) : untrimmed (line_breaks t) = untrimmed t.
Proof.
  assert (forall o : option char,
            from_option isspace false
              (option_map (fun c => if c =? 13 then nl else c) o)
            = from_option isspace false o) as Ho.
  { intros [c|]; [apply isspace_line_break | done]. }
  unfold untrimmed, line_breaks. rewrite last_map, Ho. f_equal.
  destruct t as [|c t]; [done |]. apply isspace_line_break.
Qed.

Lemma filter_nonempty_line_breaks (l : list str) :
  List.filter nonempty (map line_breaks l) = map line_breaks (List.filter nonempty l).
Proof.
  induction l as [|t l IH]; simpl; [done |].
  rewrite nonempty_line_breaks. destruct (nonempty t); simpl; by rewrite IH.
Qed.

(** C1, as the specification states it, fails in three ways.  Where a
    segment is empty: for ["A\n\n\n\nB"] the document has the three
    paragraphs "A", "" and "B", the specification's segments are "A" and
    "B".  Where a segment holds a carriage return: for ["A\rB"] the
    paragraph reads "A\nB".  Where a segment holds a character XML
    cannot hold: for ["A\x0bB"] [add_run] raises [ValueError]. *)
Lemma empty_segment_is_kept :
  (exists doc,
     build_document text_two_gaps Document_new = (Return tt, doc) /\
     paragraph_texts doc = [py "A"; []; py "B"] /\
     spec_segments text_two_gaps = [py "A"; py "B"] /\
     paragraph_texts doc <> spec_segments text_two_gaps) /\
  (exists doc,
     build_document text_cr Document_new = (Return tt, doc) /\
     paragraph_texts doc = [py "A" ++ [nl] ++ py "B"] /\
     spec_segments text_cr = [py "A" ++ [13] ++ py "B"]) /\
  (exists e doc,
     build_document text_vt Document_new = (Raise e, doc) /\
     is_ValueError e = true /\
     spec_segments text_vt = [py "A" ++ [11] ++ py "B"]).
Proof.
  split; [| split].
  - built text_two_gaps. vm_compute. repeat split; discriminate.
  - built text_cr. vm_compute. done.
  - destruct (build_document_unstorable text_vt eq_refl) as (e & doc & Hb & He).
    exists e, doc. done.
Qed.

(** C1 (amended).  For every input text whose trimmed segments hold only
    characters XML can hold, the document has one paragraph per piece of
    [text.strip().split('\n\n')], pieces that are empty after trimming
    included; the i-th paragraph's text is the i-th trimmed piece with
    each carriage return read back as a newline (the trimmed piece
    itself where no piece holds a carriage return), in the order of the
    text; the paragraphs with text are, in order, the specification's
    non-empty trimmed segments, read back likewise.  For every other
    text [add_run] raises [ValueError] and the build does not
    complete. *)
Theorem paragraphs_follow_segments (text : str) :
  (storable_text text = true ->
   exists doc,
     build_document text Document_new = (Return tt, doc) /\
     paragraph_texts doc = map (fun seg => line_breaks (strip seg)) (segments text) /\
     List.filter nonempty (paragraph_texts doc) = map line_breaks (spec_segments text) /\
     (existsb has_cr (map strip (segments text)) = false ->
      paragraph_texts doc = map strip (segments text))) /\
  (storable_text text = false ->
   exists e doc,
     build_document text Document_new = (Raise e, doc) /\ is_ValueError e = true).
Proof.
  split; [| apply build_document_unstorable].
  intros Hs. exists (document_of text).
  split; [by apply build_document_storable |].
  rewrite (paragraph_texts_document_of text Hs), <- (map_map strip line_breaks).
  split; [done |].
  split; [apply filter_nonempty_line_breaks |].
  generalize (map strip (segments text)) as l.
  induction l as [|t l IH]; simpl; [done |].
  intros [Ht Hl]%orb_false_elim. rewrite (line_breaks_id t Ht), IH; done.
Qed.

Lemma paragraphs_follow_segments_witness :
  (exists doc,
     build_document text_cr Document_new = (Return tt, doc) /\
     paragraph_texts doc = [py "A" ++ [nl] ++ py "B"]) /\
  (exists e doc,
     build_document text_vt_then Document_new = (Raise e, doc) /\
     is_ValueError e = true).
Proof.
  split.
  - destruct (paragraphs_follow_segments text_cr) as [H _].
    destruct H as (doc & Hb & Ht & _); [reflexivity |].
    exists doc. split; [exact Hb | exact Ht].
  - destruct (paragraphs_follow_segments text_vt_then) as [_ H].
    apply H. reflexivity.
Defined.

(** C2, as the specification states it, fails already for the empty
    text: the document has one (empty) paragraph, and there is no
    non-empty segment. *)
Lemma empty_text_one_paragraph :
  exists doc,
    build_document text_empty Document_new = (Return tt, doc) /\
    length (paragraphs doc) = 1%nat /\
    length (spec_segments text_empty) = 0%nat /\
    length (paragraphs doc) <> length (spec_segments text_empty).
Proof.
  built text_empty.
  vm_compute. repeat split; discriminate.
Qed.

(** C2 (amended).  When the build has completed, the number of paragraphs
    is the number of pieces of [text.strip().split('\n\n')]: the number
    of segments that are non-empty after trimming plus the number of
    those that are empty after trimming. *)
Theorem paragraph_count (text : str) (doc : Document) :
  build_document text Document_new = (Return tt, doc) ->
  length (paragraphs doc) = length (segments text) /\
  length (paragraphs doc) =
    (length (spec_segments text)
     + length (List.filter (fun seg => negb (nonempty seg))
                           (map strip (segments text))))%nat.
Proof.
  intros [_ ->]%build_document_return.
  unfold spec_segments. rewrite filter_partition_length.
  unfold document_of. simpl. rewrite !length_map. done.
Qed.

Lemma paragraph_count_witness :
  length (paragraphs (document_of text_blank_lines)) = 3%nat /\
  length (spec_segments text_blank_lines) = 2%nat.
Proof.
  destruct (paragraph_count text_blank_lines (document_of text_blank_lines))
    as [Hlen _].
  - vm_compute. reflexivity.
  - split; [rewrite Hlen |]; vm_compute; reflexivity.
Defined.

(** C3, as the specification states it, fails: for
    ["\n\nA\n\n\n\nB\n\n"] the document does not have the two paragraphs
    "A" and "B". *)
Lemma blank_lines_not_two_paragraphs :
  exists doc,
    build_document text_blank_lines Document_new = (Return tt, doc) /\
    length (paragraphs doc) <> 2%nat /\
    paragraph_texts doc <> [py "A"; py "B"].
Proof.
  built text_blank_lines.
  vm_compute. split; discriminate.
Qed.

(** C3 (amended).  For ["\n\nA\n\n\n\nB\n\n"] the document has exactly
    three paragraphs, with the texts "A", "" and "B": the blank lines at
    both ends are trimmed away, the empty segment between the two double
    newlines is kept as an empty paragraph. *)
Theorem blank_lines_three_paragraphs :
  exists doc,
    build_document text_blank_lines Document_new = (Return tt, doc) /\
    length (paragraphs doc) = 3%nat /\
    paragraph_texts doc = [py "A"; []; py "B"].
Proof.
  built text_blank_lines.
  vm_compute. done.
Qed.

(** C4.  For ["A\n\nB\n\nC"] and the path [/tmp/out.docx] the document
    written has exactly three paragraphs, with the texts "A", "B" and
    "C" in this order. *)
Theorem plain_three_paragraphs :
  exists doc,
    build_document text_plain Document_new = (Return tt, doc) /\
    files (snd (build_report text_plain tmp_out world_writable)) !! tmp_out = Some doc /\
    length (paragraphs doc) = 3%nat /\
    paragraph_texts doc = [py "A"; py "B"; py "C"].
Proof.
  built text_plain.
  split.
  - rewrite build_report_saved by done. simpl. apply lookup_insert_eq.
  - vm_compute. done.
Qed.

(** * Style and runs *)

(** C5.  The font of the [Normal] style is set to Arial, 11 pt, while the
    body is still empty; the loop does not touch the style table; and
    however the loop ends, every paragraph it has appended, and every
    run in it, is rendered with that family and size. *)
Theorem default_style_applied (text : str) :
  exists styled,
    set_default_style Document_new = (Return tt, styled) /\
    paragraphs styled = [] /\
    styles styled !! py "Normal" = Some (mkFont (Some (py "Arial")) (Some 139700%Z)) /\
    build_document text Document_new = add_paragraphs text styled /\
    styles (snd (build_document text Document_new)) = styles styled /\
    Forall (fun p =>
              paragraph_font (snd (build_document text Document_new)) p
                = Some default_font /\
              Forall (fun r =>
                        effective_font_name (snd (build_document text Document_new)) p r
                          = Some (py "Arial") /\
                        effective_font_size (snd (build_document text Document_new)) p r
                          = Some (Pt 11))
                     (paragraph_runs p))
           (paragraphs (snd (build_document text Document_new))).
Proof.
  exists (mkDocument {[ py "Normal" := default_font ]} []).
  split; [apply set_default_style_new |].
  split; [done |].
  split; [apply lookup_singleton_eq |].
  split; [by rewrite add_paragraphs_eq, build_document_eq |].
  rewrite build_document_eq. split; [done |].
  simpl snd. cbn [paragraphs].
  destruct (appended_reached (segments text)) as (n & _ & -> & _).
  apply Forall_map, Forall_forall. intros seg _.
  unfold paragraph_font, effective_font_name, effective_font_size, style_of.
  simpl. rewrite lookup_singleton_eq.
  split; [done |]. repeat constructor.
Qed.

(** C6, as the specification states it, fails where a segment holds a
    carriage return: for ["A\rB"] the run of the one paragraph reads
    "A\nB", which is not the trimmed segment. *)
Lemma carriage_return_is_line_break :
  exists doc p r,
    build_document text_cr Document_new = (Return tt, doc) /\
    paragraphs doc = [p] /\
    paragraph_runs p = [r] /\
    segments text_cr = [py "A" ++ [13] ++ py "B"] /\
    run_text r = py "A" ++ [nl] ++ py "B" /\
    run_text r <> strip (py "A" ++ [13] ++ py "B").
Proof.
  exists (document_of text_cr), (paragraph_of text_cr),
    (mkRun (snd (set_text (strip text_cr))) inherited).
  split; [by apply build_document_storable |].
  vm_compute. repeat split; discriminate.
Qed.

(** C6 (amended).  Every paragraph appended to the document has exactly
    one run.  When the build completes, the run's text is the trimmed
    segment with each carriage return read back as a newline (the
    trimmed segment itself when it holds no carriage return), and it
    neither starts nor ends with whitespace. *)
Theorem one_run_per_paragraph (text : str) :
  Forall (fun p => exists r, paragraph_runs p = [r])
         (paragraphs (snd (build_document text Document_new))) /\
  (forall doc,
     build_document text Document_new = (Return tt, doc) ->
     Forall2 (fun p seg => exists r,
                paragraph_runs p = [r] /\
                run_text r = line_breaks (strip seg) /\
                untrimmed (run_text r) = false /\
                (has_cr (strip seg) = false -> run_text r = strip seg))
             (paragraphs doc) (segments text)).
Proof.
  split.
  - rewrite build_document_eq. simpl.
    destruct (appended_reached (segments text)) as (n & _ & -> & _).
    apply Forall_map, Forall_forall. intros seg _. by eexists.
  - intros doc [Hs ->]%build_document_return.
    unfold document_of, storable_text in *. simpl paragraphs.
    apply Forall2_fmap_l, Forall_Forall2_diag, Forall_forall.
    intros seg Hin. eexists. split; [done |].
    assert (storable (strip seg) = true) as Hseg.
    { rewrite forallb_forall in Hs. apply Hs, in_map, list_elem_of_In, Hin. }
    pose proof (paragraph_text_of seg Hseg) as Ht.
    unfold paragraph_text, paragraph_of in Ht. simpl in Ht.
    rewrite app_nil_r in Ht. rewrite Ht.
    split; [done |]. split.
    + rewrite untrimmed_line_breaks. apply strip_trimmed.
    + apply line_breaks_id.
Qed.

Lemma one_run_per_paragraph_witness :
  Forall2 (fun p seg => exists r,
             paragraph_runs p = [r] /\ run_text r = line_breaks (strip seg))
          (paragraphs (document_of text_cr)) (segments text_cr).
Proof.
  destruct (one_run_per_paragraph text_cr) as [_ H].
  specialize (H (document_of text_cr)).
  eapply Forall2_impl; [apply H; vm_compute; reflexivity |].
  intros p seg (r & Hr & Ht & _). exists r. split; [exact Hr | exact Ht].
Defined.

(** * Saving and printing *)




(** A run that completes has stored the text and saved the document. *)
Lemma completed_run (text path : str) (w : World) :
  fst (run_script (build_report text path) w) = 0%Z ->
  storable_text text = true /\
  snd (run_script (build_report text path) w)
  = mkWorld (parent_dir w) (open_error w) (disk_full w)
            (<[path := document_of text]> (files w))
            (partial w ∖ {[ path ]})
            (stdout w ++ confirmation path ++ [nl]) (stderr w).
Proof.
  unfold run_script.
  destruct (build_report_cases text path w)
    as [(Hs & Hp & Ho & Hd & Hb) | [(e & Hb & He) | (Hs & Hp & Ho & Hd & Hb)]];
    rewrite Hb; simpl; done.
Qed.

(** C8.  Two runs with the same text and path, one after the other, that
    both complete leave the same document at the path, and so does a
    completed run from any other environment: what the path held
    before, and what was printed before, does not show in the
    document. *)
Theorem rebuild_same_content (text path : str) (w w' : World) :
  fst (run_script (build_report text path) w) = 0%Z ->
  fst (run_script (build_report text path)
         (snd (run_script (build_report text path) w))) = 0%Z ->
  fst (run_script (build_report text path) w') = 0%Z ->
  exists doc,
    files (snd (run_script (build_report text path) w)) !! path = Some doc /\
    files (snd (run_script (build_report text path)
                  (snd (run_script (build_report text path) w)))) !! path
      = Some doc /\
    files (snd (run_script (build_report text path) w')) !! path = Some doc /\
    build_document text Document_new = (Return tt, doc).
Proof.
  intros [Hs H1]%completed_run [_ H2]%completed_run [_ H3]%completed_run.
  exists (document_of text).
  rewrite H2, H1, H3. simpl. rewrite !lookup_insert_eq.
  repeat split. by apply build_document_storable.
Qed.

Lemma rebuild_same_content_witness :
  exists doc,
    files (snd (run_script (build_report text_cr tmp_out) world_writable)) !! tmp_out
      = Some doc /\
    files (snd (run_script (build_report text_cr tmp_out)
                  (snd (run_script (build_report text_cr tmp_out) world_writable))))
      !! tmp_out = Some doc /\
    files (snd (run_script (build_report text_cr tmp_out) world_used)) !! tmp_out
      = Some doc.
Proof.
  destruct (rebuild_same_content text_cr tmp_out world_writable world_used)
    as (doc & H1 & H2 & H3 & _).
  - vm_compute. reflexivity.
  - vm_compute. reflexivity.
  - vm_compute. reflexivity.
  - exists doc. split; [exact H1 | split; [exact H2 | exact H3]].
Defined.

Lemma startswith_self (p b : str) : startswith (p ++ b) p = true.
Proof.
  induction p as [|y p IH]; simpl; [done |]. by rewrite N.eqb_refl.
Qed.

Lemma contains_startswith (s p : str) :
  startswith s p = true -> contains s p = true.
Proof. intros H. destruct s; simpl; rewrite H; done. Qed.

Lemma contains_middle (a p b : str) : contains (a ++ p ++ b) p = true.
Proof.
  induction a as [|x a IH]; simpl.
  - apply contains_startswith, startswith_self.
  - rewrite IH. apply orb_true_r.
Qed.

(** For a path without a newline the script prints one line, and the
    path is on it. *)
Lemma confirmation_one_line (text path : str) (w : World) :
  nl ∉ path ->
  fst (run_script (build_report text path) w) = 0%Z ->
  exists line,
    stdout (snd (run_script (build_report text path) w)) = stdout w ++ line ++ [nl] /\
    (nl ∉ line) /\
    contains line path = true.
Proof.
  intros Hnl [_ Hw]%completed_run. exists (confirmation path).
  rewrite Hw. simpl.
  split; [done |]. split.
  - unfold confirmation. rewrite elem_of_app. intros [H | H]; [| done].
    revert H. change (nl ∉ py "Report written to: ").
    apply (bool_decide_unpack _). vm_compute. done.
  - pose proof (contains_middle (py "Report written to: ") path []) as H.
    rewrite app_nil_r in H. exact H.
Qed.

(** C9.  When the script completes (exit status 0) it has added exactly
    one line to the output stream, and the line contains the output
    path. *)
Theorem confirmation_printed (w : World) :
  fst (run_script main w) = 0%Z ->
  exists line,
    stdout (snd (run_script main w)) = stdout w ++ line ++ [nl] /\
    (nl ∉ line) /\
    contains line output_path = true.
Proof.
  apply confirmation_one_line.
  apply (bool_decide_unpack _). vm_compute. done.
Qed.

Lemma confirmation_printed_witness :
  exists line,
    stdout (snd (run_script main world_writable)) = line ++ [nl] /\
    contains line output_path = true.
Proof.
  destruct (confirmation_printed world_writable) as (line & Hout & _ & Hpath).
  - vm_compute. reflexivity.
  - exists line. split; [exact Hout | exact Hpath].
Defined.

(** * One paragraph per piece *)




(** A line that holds only a space does not end a paragraph. *)
Example space_line_is_no_boundary :
  segments (py "A" ++ [nl; space; nl] ++ py "B") = [py "A" ++ [nl; space; nl] ++ py "B"].
Proof. vm_compute. reflexivity. Qed.

(** Three newlines in a row are cut after the second. *)
Example three_newlines :
  segments (py "A" ++ [nl; nl; nl] ++ py "B") = [py "A"; nl :: py "B"].
Proof. vm_compute. reflexivity. Qed.

(** * The script's own text *)

(** The embedded text has 31 segments, none of them is empty after
    trimming, and all of them can be stored and hold no carriage return:
    on the script's own input the paragraphs are the specification's
    segments. *)
Lemma report_paragraphs :
  length (segments report) = 31%nat /\
  storable_text report = true /\
  paragraph_texts (document_of report) = spec_segments report.
Proof.
  assert (storable_text report = true) as Hs by (vm_compute; reflexivity).
  rewrite (paragraph_texts_document_of report Hs). unfold spec_segments.
  assert (forallb nonempty (map strip (segments report)) = true) as Hne
    by (vm_compute; reflexivity).
  assert (existsb has_cr (map strip (segments report)) = false) as Hcr
    by (vm_compute; reflexivity).
  split; [vm_compute; reflexivity |]. split; [done |].
  rewrite (forallb_filter_id _ _ Hne), <- (map_map strip line_breaks).
  revert Hcr. generalize (map strip (segments report)) as l.
  induction l as [|t l IH]; simpl; [done |].
  intros [Ht Hl]%orb_false_elim. rewrite (line_breaks_id t Ht), IH; done.
Qed.

(** * More on trimming *)

Lemma lstrip_nil_blank (s : str) : lstrip s = [] -> blank s = true.
Proof.
  intros H. destruct (lstrip_split s) as [ws [Hs Hws]].
  rewrite H, app_nil_r in Hs. by subst.
Qed.

Lemma lstrip_app_blank (ws s : str) :
  blank ws = true -> lstrip (ws ++ s) = lstrip s.
Proof.
  induction ws as [|c ws IH]; simpl; [done |].
  intros [-> Hws]%andb_prop. auto.
Qed.

Lemma lstrip_app_keep (s t : str) :
  lstrip s <> [] -> lstrip (s ++ t) = lstrip s ++ t.
Proof.
  induction s as [|c s IH]; simpl; [done |].
  destruct (isspace c); [exact IH | done].
Qed.

Lemma rstrip_app_blank (s ws : str) :
  blank ws = true -> rstrip (s ++ ws) = rstrip s.
Proof.
  intros Hws. unfold rstrip. rewrite reverse_app, lstrip_app_blank; [done |].
  unfold blank. by rewrite forallb_reverse.
Qed.

Lemma blank_app (s t : str) : blank (s ++ t) = blank s && blank t.
Proof. apply forallb_app. Qed.

Lemma strip_app_blank_l (ws s : str) :
  blank ws = true -> strip (ws ++ s) = strip s.
Proof. intros H. unfold strip. by rewrite lstrip_app_blank. Qed.

Lemma strip_app_blank_r (s ws : str) :
  blank ws = true -> strip (s ++ ws) = strip s.
Proof.
  intros Hws. unfold strip.
  destruct (lstrip s) as [|c t] eqn:Hs.
  - apply lstrip_nil_blank in Hs.
    rewrite lstrip_whitespace; [done |].
    fold (blank (s ++ ws)). rewrite blank_app, Hs, Hws. done.
  - rewrite lstrip_app_keep, Hs by (rewrite Hs; done).
    by apply rstrip_app_blank.
Qed.

Lemma strip_between (s : str) :
  exists l r, s = l ++ strip s ++ r /\ blank l = true /\ blank r = true.
Proof.
  destruct (lstrip_split s) as [l [Hl Hbl]].
  destruct (rstrip_split (lstrip s)) as [r [Hr Hbr]].
  exists l, r. unfold strip. rewrite <- Hr. done.
Qed.

Lemma untrimmed_false (s : str) :
  untrimmed s = false ->
  (forall c, head s = Some c -> isspace c = false) /\
  (forall c, last s = Some c -> isspace c = false).
Proof.
  unfold untrimmed. intros [Hh Hl]%orb_false_elim.
  split; intros c Hc; rewrite Hc in *; done.
Qed.

Lemma strip_fixed (s : str) : untrimmed s = false -> strip s = s.
Proof.
  intros [Hh Hl]%untrimmed_false. unfold strip.
  rewrite (lstrip_fixed s Hh). by apply rstrip_fixed.
Qed.

Lemma visible_app (s t : str) : visible (s ++ t) = visible s ++ visible t.
Proof. apply List.filter_app. Qed.

Lemma visible_blank (ws : str) : blank ws = true -> visible ws = [].
Proof.
  induction ws as [|c ws IH]; simpl; [done |].
  intros [-> Hws]%andb_prop. simpl. auto.
Qed.

Lemma visible_strip (s : str) : visible (strip s) = visible s.
Proof.
  destruct (strip_between s) as (l & r & Hs & Hl & Hr).
  rewrite Hs at 2. rewrite !visible_app, (visible_blank l), (visible_blank r) by done.
  simpl. by rewrite app_nil_r.
Qed.

Lemma length_strip (s : str) : (length (strip s) <= length s)%nat.
Proof.
  destruct (strip_between s) as (l & r & Hs & _).
  rewrite Hs at 2. rewrite !length_app. lia.
Qed.

(** X1.  [strip] takes away whitespace at the two ends and nothing else:
    the text is the stripped text between two runs of whitespace, and
    the stripped text has no whitespace at either end. *)
Theorem strip_takes_only_whitespace (s : str) :
  exists l r,
    s = l ++ strip s ++ r /\
    blank l = true /\ blank r = true /\
    untrimmed (strip s) = false.
Proof.
  destruct (strip_between s) as (l & r & Hs & Hl & Hr).
  exists l, r. repeat split; try done. apply strip_trimmed.
Qed.

(** X2.  Whitespace before and after the text does not change the
    document that is built. *)
Theorem surrounding_whitespace_ignored (l text r : str) :
  blank l = true -> blank r = true ->
  build_document (l ++ text ++ r) Document_new = build_document text Document_new.
Proof.
  intros Hl Hr. rewrite !build_document_eq.
  unfold document_of, segments.
  rewrite (strip_app_blank_l l), (strip_app_blank_r text) by done. done.
Qed.

Lemma surrounding_whitespace_ignored_witness :
  build_document text_blank_lines Document_new
  = build_document text_two_gaps Document_new.
Proof.
  apply (surrounding_whitespace_ignored [nl; nl] text_two_gaps [nl; nl]).
  - reflexivity.
  - reflexivity.
Defined.

(** * More on cutting *)

Lemma contains_app_l (t b sep : str) :
  contains t sep = true -> contains (t ++ b) sep = true.
Proof.
  induction t as [|x t IH]; simpl.
  - rewrite orb_false_r. intros H.
    apply contains_startswith. by apply (startswith_extend [] b).
  - intros [H | H]%orb_prop.
    + apply orb_true_iff. left. exact (startswith_extend (x :: t) b _ H).
    + rewrite (IH H). apply orb_true_r.
Qed.

Lemma contains_app_r (a t sep : str) :
  contains t sep = true -> contains (a ++ t) sep = true.
Proof.
  intros H. induction a as [|x a IH]; simpl; [done |].
  rewrite IH. apply orb_true_r.
Qed.

Lemma contains_inside (a t b sep : str) :
  contains (a ++ t ++ b) sep = false -> contains t sep = false.
Proof.
  intros H. destruct (contains t sep) eqn:Ht; [| done].
  apply (contains_app_l t b), (contains_app_r a) in Ht. congruence.
Qed.

Section Cut.

Variables (c0 : char) (sep' : str).

(** A block in front of a separator is a piece of its own when no
    occurrence of the separator starts inside the block. *)
Lemma split_from_block (a b cur : str) :
  (forall a1 a2, a = a1 ++ a2 -> a2 <> [] ->
                 startswith (a2 ++ (c0 :: sep') ++ b) (c0 :: sep') = false) ->
  split_from c0 sep' (a ++ (c0 :: sep') ++ b) cur
  = (reverse cur ++ a) :: split_from c0 sep' b [].
Proof.
  revert cur. induction a as [|x a IH]; intros cur Hno.
  - simpl app. simp split_from.
    assert (startswith (c0 :: sep' ++ b) (c0 :: sep') = true) as ->
      by apply (startswith_self (c0 :: sep') b).
    simpl. rewrite drop_app_length, app_nil_r. done.
  - simpl app. simp split_from.
    pose proof (Hno [] (x :: a) eq_refl ltac:(done)) as H0.
    simpl app in H0. rewrite H0. simpl.
    rewrite IH, reverse_cons, <- app_assoc; [done |].
    intros a1 a2 -> Ha2. apply (Hno (x :: a1) a2); done.
Qed.

Lemma in_str_join (sep p : str) (ps : list str) :
  In p ps -> exists a b, str_join sep ps = a ++ p ++ b.
Proof.
  induction ps as [|q ps IH]; [done |].
  intros [-> | Hin].
  - destruct ps as [|q' ps].
    + exists [], []. simpl. by rewrite app_nil_r.
    + exists [], (sep ++ str_join sep (q' :: ps)). done.
  - destruct (IH Hin) as (a & b & Hab).
    destruct ps as [|q' ps]; [done |].
    exists (q ++ sep ++ a), b.
    rewrite str_join_cons by done. rewrite Hab, <- !app_assoc. done.
Qed.

Lemma length_str_join (sep : str) (ps : list str) :
  ps <> [] ->
  (length (str_join sep ps) + length sep
   = list_sum (map length ps) + length sep * length ps)%nat.
Proof.
  induction ps as [|p ps IH]; [done |]. intros _.
  destruct ps as [|q ps]; [simpl; lia |].
  rewrite str_join_cons by done.
  specialize (IH ltac:(done)).
  rewrite !length_app.
  change (length (p :: q :: ps)) with (S (length (q :: ps))).
  change (map length (p :: q :: ps)) with (length p :: map length (q :: ps)).
  change (list_sum (length p :: map length (q :: ps)))
    with (length p + list_sum (map length (q :: ps)))%nat.
  rewrite Nat.mul_succ_r. lia.
Qed.

End Cut.

Lemma visible_str_join (sep : str) (ps : list str) :
  blank sep = true ->
  visible (str_join sep ps) = List.concat (map visible ps).
Proof.
  intros Hsep. induction ps as [|p ps IH]; [done |].
  destruct ps as [|q ps].
  - simpl. by rewrite app_nil_r.
  - rewrite str_join_cons by done.
    rewrite !visible_app, (visible_blank sep Hsep), IH. done.
Qed.

(** The double newline does not start inside a block that neither holds
    one nor ends in a newline. *)
Lemma no_cut_inside (a b : str) :
  contains (a ++ [nl]) [nl; nl] = false ->
  forall a1 a2, a = a1 ++ a2 -> a2 <> [] ->
                startswith (a2 ++ [nl; nl] ++ b) [nl; nl] = false.
Proof.
  intros Hno a1 a2 -> Ha2.
  rewrite <- app_assoc in Hno.
  assert (startswith (a2 ++ [nl]) [nl; nl] = false) as H.
  { destruct (startswith (a2 ++ [nl]) [nl; nl]) eqn:E; [| done].
    apply contains_startswith, (contains_app_r a1) in E. congruence. }
  destruct a2 as [|x [|y a2]]; done.
Qed.

Lemma newline_after (p : str) :
  contains p [nl; nl] = false ->
  (forall c, last p = Some c -> isspace c = false) ->
  contains (p ++ [nl]) [nl; nl] = false.
Proof.
  induction p as [|x p IH]; intros Hno Hlast; [done |].
  change (contains ((x :: p) ++ [nl]) [nl; nl])
    with (startswith (x :: p ++ [nl]) [nl; nl] || contains (p ++ [nl]) [nl; nl]).
  change (contains (x :: p) [nl; nl])
    with (startswith (x :: p) [nl; nl] || contains p [nl; nl]) in Hno.
  apply orb_false_elim in Hno as [Hs Hc].
  apply orb_false_intro.
  - destruct p as [|y p].
    + specialize (Hlast x eq_refl). cbn [app startswith].
      destruct (N.eqb_spec nl x) as [<- | _]; done.
    + exact Hs.
  - apply IH; [done |]. intros c Hc'. apply Hlast.
    destruct p; done.
Qed.

Lemma block_then_newline (p : str) :
  block p = true -> contains (p ++ [nl]) [nl; nl] = false.
Proof.
  unfold block. intros [[_ Htrim]%andb_prop Hno]%andb_prop.
  apply negb_true_iff in Htrim, Hno.
  apply untrimmed_false in Htrim as [_ Hlast].
  by apply newline_after.
Qed.

Lemma segments_of_blocks (ps : list str) :
  ps <> [] -> forallb block ps = true ->
  split_from nl [nl] (str_join [nl; nl] ps) [] = ps.
Proof.
  induction ps as [|p ps IH]; [done |].
  intros _ [Hp Hps]%andb_prop.
  destruct ps as [|q ps].
  - simpl. rewrite split_from_no_sep; [done |].
    unfold block in Hp. apply andb_prop in Hp as [_ Hp].
    by apply negb_true_iff in Hp.
  - rewrite str_join_cons by done.
    rewrite split_from_block by (apply no_cut_inside, block_then_newline, Hp).
    rewrite IH by done. done.
Qed.

Lemma blocks_join_trimmed (ps : list str) :
  ps <> [] -> forallb block ps = true ->
  str_join [nl; nl] ps <> [] /\ untrimmed (str_join [nl; nl] ps) = false.
Proof.
  induction ps as [|p ps IH]; [done |].
  intros _ [Hp Hps]%andb_prop.
  unfold block in Hp. apply andb_prop in Hp as [[Hne Htrim]%andb_prop _].
  apply negb_true_iff in Htrim.
  destruct ps as [|q ps].
  - simpl. split; [by destruct p | done].
  - destruct (IH ltac:(done) Hps) as [Hj Hu].
    rewrite str_join_cons by done.
    split; [by destruct p |].
    unfold untrimmed in *.
    apply orb_false_elim in Htrim as [Hh _], Hu as [_ Hl].
    apply orb_false_intro.
    + destruct p; done.
    + rewrite !last_app.
      destruct (last (str_join [nl; nl] (q :: ps))) eqn:E; [done |].
      apply last_None in E. done.
Qed.

(** * Blocks, pieces and paragraphs *)

(** X3.  A first block that holds no double newline and does not end in a
    newline, followed by a double newline, is cut off as the first
    piece; the rest of the text is cut on its own. *)
Theorem split_first_block (a b : str) :
  contains (a ++ [nl]) [nl; nl] = false ->
  exists rest,
    split b [nl; nl] = Return rest /\
    split (a ++ [nl; nl] ++ b) [nl; nl] = Return (a :: rest).
Proof.
  intros Hno. exists (split_from nl [nl] b []).
  split; [done |]. unfold split. f_equal.
  apply (split_from_block nl [nl] a b []), no_cut_inside, Hno.
Qed.

Lemma split_first_block_witness :
  split (py "A" ++ [nl; nl] ++ [nl] ++ py "B" ++ [nl; nl] ++ py "C") [nl; nl]
  = Return [py "A"; [nl] ++ py "B"; py "C"].
Proof.
  destruct (split_first_block (py "A") ([nl] ++ py "B" ++ [nl; nl] ++ py "C"))
    as (rest & Hrest & Hall).
  - reflexivity.
  - rewrite Hall. f_equal. f_equal.
    assert (Return rest = Return [[nl] ++ py "B"; py "C"]) as E
      by (rewrite <- Hrest; reflexivity).
    injection E as ->. reflexivity.
Defined.

(** X4.  Round trip: for blocks that are not empty, have no whitespace at
    either end, hold no double newline and only characters XML can hold,
    the document built from the blocks joined by double newlines has
    these blocks as its paragraph texts, each carriage return read back
    as a newline; exactly these blocks when none holds a carriage
    return. *)
Theorem blocks_round_trip (ps : list str) :
  ps <> [] ->
  forallb block ps = true ->
  forallb storable ps = true ->
  exists doc,
    build_document (str_join [nl; nl] ps) Document_new = (Return tt, doc) /\
    paragraph_texts doc = map line_breaks ps /\
    (existsb has_cr ps = false -> paragraph_texts doc = ps).
Proof.
  intros Hne Hps Hst.
  destruct (blocks_join_trimmed ps Hne Hps) as [_ Htrim].
  assert (segments (str_join [nl; nl] ps) = ps) as Hsegs.
  { unfold segments. rewrite (strip_fixed _ Htrim). by apply segments_of_blocks. }
  assert (map strip ps = ps) as Hstrip.
  { clear Hne Htrim Hsegs Hst. induction ps as [|p ps IH]; [done |].
    apply andb_prop in Hps as [Hp Hps]. simpl. rewrite IH by done.
    f_equal. apply strip_fixed.
    unfold block in Hp. apply andb_prop in Hp as [[_ Hp]%andb_prop _].
    by apply negb_true_iff in Hp. }
  assert (storable_text (str_join [nl; nl] ps) = true) as Hs.
  { unfold storable_text. by rewrite Hsegs, Hstrip. }
  exists (document_of (str_join [nl; nl] ps)).
  split; [by apply build_document_storable |].
  rewrite (paragraph_texts_document_of _ Hs), Hsegs.
  rewrite <- (map_map strip line_breaks), Hstrip.
  split; [done |].
  clear. induction ps as [|t l IH]; simpl; [done |].
  intros [Ht Hl]%orb_false_elim. rewrite (line_breaks_id t Ht), IH; done.
Qed.

Lemma blocks_round_trip_witness :
  exists doc,
    build_document
      (str_join [nl; nl] [py "Title"; py "one" ++ [nl] ++ py "two"; py "a" ++ [13] ++ py "b"])
      Document_new = (Return tt, doc) /\
    paragraph_texts doc
    = [py "Title"; py "one" ++ [nl] ++ py "two"; py "a" ++ [nl] ++ py "b"].
Proof.
  destruct (blocks_round_trip
              [py "Title"; py "one" ++ [nl] ++ py "two"; py "a" ++ [13] ++ py "b"])
    as (doc & Hb & Ht & _).
  - discriminate.
  - vm_compute. reflexivity.
  - vm_compute. reflexivity.
  - exists doc. split; [exact Hb | exact Ht].
Defined.

Lemma visible_line_breaks (t : str) : visible (line_breaks t) = visible t.
Proof.
  induction t as [|c t IH]; [done |].
  unfold visible, line_breaks in *. cbn [map List.filter].
  rewrite isspace_line_break, IH.
  destruct (N.eqb_spec c 13) as [-> | _]; done.
Qed.

(** X5.  When the build completes, no visible character is lost, added
    or moved: the characters of the paragraph texts that are not
    whitespace, read in order, are those of the input text. *)
Theorem visible_characters_kept (text : str) (doc : Document) :
  build_document text Document_new = (Return tt, doc) ->
  List.concat (map visible (paragraph_texts doc)) = visible text.
Proof.
  intros [Hs ->]%build_document_return.
  rewrite (paragraph_texts_document_of text Hs), map_map.
  rewrite (map_ext _ visible)
    by (intros seg; rewrite visible_line_breaks; apply visible_strip).
  rewrite <- (visible_str_join [nl; nl]) by done.
  unfold segments. rewrite str_join_split_from. simpl.
  apply visible_strip.
Qed.

Lemma visible_characters_kept_witness :
  List.concat (map visible (paragraph_texts (document_of text_blank_lines)))
  = py "AB".
Proof.
  rewrite (visible_characters_kept text_blank_lines (document_of text_blank_lines)).
  - vm_compute. reflexivity.
  - vm_compute. reflexivity.
Defined.

Lemma has_cr_app (s t : str) : has_cr (s ++ t) = has_cr s || has_cr t.
Proof. apply existsb_app. Qed.

(** X6.  When the build completes for a text without a carriage return,
    every paragraph text is a stretch of the input text, and none holds
    a double newline. *)
Theorem paragraph_texts_from_input (text : str) (doc : Document) :
  build_document text Document_new = (Return tt, doc) ->
  has_cr text = false ->
  Forall (fun t => contains text t = true /\ contains t [nl; nl] = false)
         (paragraph_texts doc).
Proof.
  intros [Hs ->]%build_document_return Hcr.
  rewrite (paragraph_texts_document_of text Hs).
  apply Forall_map, Forall_forall. intros seg Hin%list_elem_of_In.
  destruct (strip_between text) as (l & r & Htext & _).
  destruct (strip_between seg) as (l' & r' & Hseg & _).
  destruct (in_str_join [nl; nl] seg _ Hin) as (a & b & Hab).
  unfold segments in Hab. rewrite str_join_split_from in Hab. simpl in Hab.
  assert (contains (strip seg) [nl; nl] = false) as Hno.
  { apply (contains_inside l' _ r'). rewrite <- Hseg.
    pose proof (split_from_pieces_nil nl [nl] (strip text)) as Hall.
    rewrite Forall_forall in Hall. apply Hall. by apply list_elem_of_In. }
  remember (strip seg) as t eqn:Ht. clear Ht.
  assert (text = (l ++ a ++ l') ++ t ++ (r' ++ b ++ r)) as Hmid.
  { rewrite Htext, Hab, Hseg, <- !app_assoc. done. }
  assert (has_cr t = false) as Hcrt.
  { rewrite Hmid, !has_cr_app in Hcr.
    apply orb_false_elim in Hcr as [_ Hcr].
    by apply orb_false_elim in Hcr as [Hcr _]. }
  rewrite (line_breaks_id t Hcrt). split; [| done].
  rewrite Hmid. apply contains_middle.
Qed.

Lemma paragraph_texts_from_input_witness :
  Forall (fun t => contains text_blank_lines t = true /\ contains t [nl; nl] = false)
         (paragraph_texts (document_of text_blank_lines)).
Proof.
  apply (paragraph_texts_from_input text_blank_lines (document_of text_blank_lines)).
  - vm_compute. reflexivity.
  - vm_compute. reflexivity.
Defined.

(** X7.  The paragraph count is bounded by the text: the pieces and the
    double newlines between them add up to the stripped text, so a
    completed build with k paragraphs needs a text of at least 2(k-1)
    characters. *)
Theorem paragraphs_account_for_text (text : str) (doc : Document) :
  build_document text Document_new = (Return tt, doc) ->
  (list_sum (map length (segments text)) + 2 * (length (paragraphs doc) - 1)
   = length (strip text))%nat /\
  (2 * length (paragraphs doc) <= length text + 2)%nat.
Proof.
  intros [_ ->]%build_document_return.
  assert (length (paragraphs (document_of text)) = length (segments text)) as ->
    by (unfold document_of; simpl; apply length_map).
  pose proof (split_from_not_nil nl [nl] (strip text) []) as Hne.
  pose proof (length_str_join [nl; nl] (segments text) Hne) as Hlen.
  pose proof (split_from_length nl [nl] (strip text) []) as Hk.
  pose proof (length_strip text) as Hs.
  unfold segments in *. rewrite str_join_split_from in Hlen.
  simpl in Hlen. lia.
Qed.

Lemma paragraphs_account_for_text_witness :
  (2 * length (paragraphs (document_of text_two_gaps)) <= length text_two_gaps + 2)%nat.
Proof.
  apply (paragraphs_account_for_text text_two_gaps (document_of text_two_gaps)).
  vm_compute. reflexivity.
Defined.

(** * The loop and the run as a whole *)

(** X8.  On any document, however the loop ends, it has only appended:
    the style table and the paragraphs that were there stay as they
    are, and the new paragraphs are those of the pieces the loop has
    reached, in order, each run set through the handle of the paragraph
    just appended.  The loop returns exactly when every trimmed piece
    can be stored, and then it has reached every piece; otherwise it
    raises [ValueError]. *)
Theorem loop_only_appends (text : str) (doc : Document) :
  styles (snd (add_paragraphs text doc)) = styles doc /\
  (exists n,
     (n <= length (segments text))%nat /\
     paragraphs (snd (add_paragraphs text doc))
       = paragraphs doc ++ map paragraph_of (take n (segments text)) /\
     (fst (add_paragraphs text doc) = Return tt -> n = length (segments text))) /\
  (fst (add_paragraphs text doc) = Return tt <-> storable_text text = true) /\
  (forall e, fst (add_paragraphs text doc) = Raise e -> is_ValueError e = true).
Proof.
  rewrite add_paragraphs_eq. simpl.
  split; [done |]. split.
  - destruct (appended_reached (segments text)) as (n & Hn & Hps & _ & Hall).
    exists n. rewrite Hps. done.
  - split; [split |].
    + apply appended_return.
    + intros Hs. unfold storable_text in Hs. by rewrite appended_storable.
    + intros e He. by destruct (appended_raise _ _ He).
Qed.

Lemma loop_only_appends_witness :
  fst (add_paragraphs text_cr (document_of text_plain)) = Return tt.
Proof.
  destruct (loop_only_appends text_cr (document_of text_plain))
    as (_ & _ & Hiff & _).
  apply Hiff. reflexivity.
Defined.

(** X9.  A text with a piece that cannot be stored ends the script with
    [ValueError] before [save], whatever the environment: status 1, and
    the files, the partial files and the output stream are as they
    were.  So a script that completes has stored every trimmed piece,
    and its [save] met no obstacle: the parent directory was writable,
    the path could be opened and the device was not full. *)
Theorem text_failure_precedes_save (text path : str) (w : World) :
  (storable_text text = false ->
   exists e,
     fst (build_report text path w) = Raise e /\ is_ValueError e = true /\
     fst (run_script (build_report text path) w) = 1%Z /\
     files (snd (run_script (build_report text path) w)) = files w /\
     partial (snd (run_script (build_report text path) w)) = partial w /\
     stdout (snd (run_script (build_report text path) w)) = stdout w) /\
  (fst (run_script (build_report text path) w) = 0%Z ->
   storable_text text = true /\ parent_dir w path = Writable /\
   open_error w path = None /\ disk_full w = false).
Proof.
  split.
  - intros Hs. destruct (build_report_unstorable text path w Hs) as (e & Hb & He).
    exists e. unfold run_script. rewrite Hb. done.
  - unfold run_script.
    destruct (build_report_cases text path w)
      as [(Hs & Hp & Ho & Hd & Hb) | [(e & Hb & He) | (Hs & Hp & Ho & Hd & Hb)]];
      rewrite Hb; simpl; done.
Qed.

Lemma text_failure_precedes_save_witness :
  fst (run_script (build_report text_vt tmp_out) world_used) = 1%Z /\
  files (snd (run_script (build_report text_vt tmp_out) world_used))
  = files world_used.
Proof.
  destruct (text_failure_precedes_save text_vt tmp_out world_used) as [Hbad _].
  destruct Hbad as (e & Hbad); [reflexivity |].
  destruct Hbad as (_ & _ & Hst & Hfiles & _).
  split; [exact Hst | exact Hfiles].
Defined.

(** X10.  The script writes to the output path and to no other: whether
    it completes or fails, every other path holds what it held before. *)
Theorem other_files_untouched (text path other : str) (w : World) :
  other <> path ->
  files (snd (run_script (build_report text path) w)) !! other
  = files w !! other.
Proof.
  intros Hne. unfold run_script.
  destruct (build_report_cases text path w)
    as [(Hs & Hp & Ho & Hd & Hb) | [(e & Hb & He) | (Hs & Hp & Ho & Hd & Hb)]];
    rewrite Hb; simpl.
  - by apply lookup_insert_ne.
  - done.
  - by apply lookup_delete_ne.
Qed.

Lemma other_files_untouched_witness :
  files (snd (run_script (build_report text_plain tmp_out) world_used))
    !! py "/tmp/other.docx"
  = Some Document_new.
Proof.
  rewrite (other_files_untouched text_plain tmp_out (py "/tmp/other.docx") world_used).
  - vm_compute. reflexivity.
  - vm_compute. discriminate.
Defined.
